(** * Silero API server: the orchestration shell around the TTS model

    A shallow embedding of [silero_api_server/tts.py] (session manager,
    text chunker, synthesis orchestrator, sample cache, language
    registry) and the properties its specification states about it.

    Conventions of the embedding.
    - A Python [str] is a [string]; its characters are [ascii].
    - A [pathlib] path is its anchored list of components (POSIX flavour);
      the file system lists what each path holds.
    - A method that touches the file system is a function from the file
      system to a result and the file system it leaves; an exception is
      a [Raise] result.
    - The collaborators the source calls (the TTS model, pydub, json,
      requests, torch) are parameters of the development. *)

From Stdlib Require Import String Ascii List Arith Lia Bool.
From stdpp Require Import base decidable option list strings pretty.
Import ListNotations.

Local Open Scope string_scope.
Local Open Scope list_scope.

(** ** Python strings *)

Module PyStr.

Definition space : ascii := " "%char.
Definition newline : ascii := "010"%char.

(** [s.split(sep)] for a one-character separator: every occurrence
    cuts, so a string with [n] separators has [n + 1] pieces and the
    empty string has the single piece [""]. *)
Fixpoint split (sep : ascii) (s : string) : list string :=
  match s with
  | EmptyString => [EmptyString]
  | String c r =>
      if Ascii.eqb c sep then EmptyString :: split sep r
      else match split sep r with
           | w :: ws => String c w :: ws
           | [] => [String c EmptyString]
           end
  end.

(** [s.replace(a, b)] for one-character [a] and [b]. *)
Fixpoint replace (a b : ascii) (s : string) : string :=
  match s with
  | EmptyString => EmptyString
  | String c r => String (if Ascii.eqb c a then b else c) (replace a b r)
  end.

(** [''.join(l)]. *)
Definition join (l : list string) : string :=
  fold_right String.append EmptyString l.

(** [c * n]. *)
Fixpoint times (c : ascii) (n : nat) : string :=
  match n with
  | O => EmptyString
  | S k => String c (times c k)
  end.

(** [s.endswith(c)]. *)
Fixpoint endswith (c : ascii) (s : string) : bool :=
  match s with
  | EmptyString => false
  | String a EmptyString => Ascii.eqb a c
  | String _ r => endswith c r
  end.

Definition nonempty (s : string) : bool :=
  match s with EmptyString => false | _ => true end.

(** [c in s]. *)
Fixpoint contains (c : ascii) (s : string) : bool :=
  match s with
  | EmptyString => false
  | String a r => Ascii.eqb a c || contains c r
  end.

(** [s.startswith(p)]. *)
Fixpoint startswith (p s : string) : bool :=
  match p, s with
  | EmptyString, _ => true
  | String _ _, EmptyString => false
  | String a p', String b s' => Ascii.eqb a b && startswith p' s'
  end.

(** [s.split(sep)] for a separator of several characters: the leftmost
    occurrences cut, without overlap. [skip] counts the characters of
    the occurrence being stepped over. *)
Fixpoint split_str_go (sep : string) (skip : nat) (s : string) : list string :=
  match s with
  | EmptyString => [EmptyString]
  | String c r =>
      match skip with
      | S k => split_str_go sep k r
      | O =>
          if startswith sep s
          then EmptyString :: split_str_go sep (String.length sep - 1) r
          else match split_str_go sep 0 r with
               | w :: ws => String c w :: ws
               | [] => [String c EmptyString]
               end
      end
  end.

Definition split_str (sep s : string) : list string := split_str_go sep 0 s.

End PyStr.

(** ** Text chunker *)

Module Chunker.

(** [word.replace('\n',' ') + " "], line 120. *)
Definition padded (word : string) : string :=
  PyStr.replace PyStr.newline PyStr.space word +:+ " ".

(** One turn of the loop of [split_text], lines 119-124, on the pair
    [(chunk_list, chunk_str)]. *)
Definition split_step (max_char_length : nat)
    (st : list string * string) (word : string) : list string * string :=
  let '(chunk_list, chunk_str) := st in
  let word := padded word in
  let '(chunk_list, chunk_str) :=
    if (max_char_length <? String.length (chunk_str +:+ word))%nat
    then (chunk_list ++ [chunk_str], EmptyString)
    else (chunk_list, chunk_str) in
  (chunk_list, chunk_str +:+ word).

(** [SileroTtsService.split_text], lines 114-130, with the budget
    [self.max_char_length] as an argument. *)
Definition split_text (max_char_length : nat) (text : string) : list string :=
  let '(chunk_list, chunk_str) :=
    fold_left (split_step max_char_length) (PyStr.split PyStr.space text)
              ([], EmptyString) in
  if (0 <? String.length chunk_str)%nat then chunk_list ++ [chunk_str]
  else chunk_list.

(** The word sequence of a text once its newlines are spaces: the
    non-empty pieces between spaces. *)
Definition word_seq (s : string) : list string :=
  List.filter PyStr.nonempty
         (PyStr.split PyStr.space (PyStr.replace PyStr.newline PyStr.space s)).

End Chunker.

(** ** Paths and the file system *)

Module Pathlib.

(** A pure POSIX path: whether it is anchored at the root, and its
    components. *)
Record Path := mkPath { anchored : bool; parts : list string }.

Global Instance Path_eq_dec : EqDecision Path.
Proof. solve_decision. Defined.

Definition is_component (c : string) : bool :=
  PyStr.nonempty c && negb (String.eqb c ".").

(** [Path(s)]: the components between slashes, the empty ones and the
    ["."] ones dropped. *)
Definition of_str (s : string) : Path :=
  {| anchored := PyStr.startswith "/" s;
     parts := List.filter is_component (PyStr.split "/"%char s) |}.

(** [a / b] and [a.joinpath(b)]: an anchored [b] wins. *)
Definition joinpath (a b : Path) : Path :=
  if anchored b then b
  else {| anchored := anchored a; parts := parts a ++ parts b |}.

(** [p.parent]. *)
Definition parent (p : Path) : Path :=
  {| anchored := anchored p; parts := removelast (parts p) |}.

(** The proper ancestors of [p] that have a name, outermost first. *)
Definition ancestors (p : Path) : list Path :=
  List.map (fun n => {| anchored := anchored p; parts := firstn n (parts p) |})
           (seq 1 (Nat.pred (List.length (parts p)))).

End Pathlib.

Export Pathlib.

Module FileSystem.

Inductive node : Type :=
| Dir
| File (data : string).

Global Instance node_eq_dec : EqDecision node.
Proof. solve_decision. Defined.

(** The file system: the entries of a disk, each a path and what it
    holds. The first entry of a path is the one that counts. It is kept
    as a list so that the code runs on a concrete disk by computation. *)
Definition FS : Type := list (Path * node).

Fixpoint fs_lookup (p : Path) (fs : FS) : option node :=
  match fs with
  | [] => None
  | (q, n) :: r => if bool_decide (q = p) then Some n else fs_lookup p r
  end.

Definition fs_delete (p : Path) (fs : FS) : FS :=
  List.filter (fun e => negb (bool_decide (fst e = p))) fs.

Definition fs_insert (p : Path) (n : node) (fs : FS) : FS :=
  (p, n) :: fs_delete p fs.

(** What a path names. The root and the working directory have no
    components and are always directories; any other path names what
    the disk holds for it. A path is looked up as it is written: a
    component [..] is a name like any other here, where the operating
    system resolves it, so the disk speaks for the paths written
    without [..], each of which names one place. *)
Definition node_at (p : Path) (fs : FS) : option node :=
  match parts p with
  | [] => Some Dir
  | _ => fs_lookup p fs
  end.

Definition is_dir (p : Path) (fs : FS) : bool :=
  bool_decide (node_at p fs = Some Dir).

Definition is_file (p : Path) (fs : FS) : bool :=
  match node_at p fs with
  | Some (File _) => true
  | _ => false
  end.

Definition exists_ (p : Path) (fs : FS) : bool :=
  bool_decide (is_Some (node_at p fs)).

(** The entries of directory [d]. *)
Definition children (d : Path) (fs : FS) : list Path :=
  List.nodup Path_eq_dec
    (List.filter (fun p => bool_decide (parts p <> [] /\ parent p = d))
                 (List.map fst fs)).

End FileSystem.

Export FileSystem.

(** ** Exceptions and effects *)

Module Py.

Inductive exn : Type :=
| SessionNotInitialized
    (* Exception("Session not initialized. ..."), line 38 *)
| LangNotInRegistry (lang_model : string) (known : list string)
    (* Exception(f"{lang_model} not in {list(self.langs.values())}"), line 76 *)
| FailedToGetLanguages (status_code : nat)
    (* Exception(f"Failed to get languages: {response.status_code}"), line 180 *)
| OSError
    (* raised by os, pathlib, shutil and open *)
| ExternalError.
    (* raised inside the model, pydub, json, requests or torch *)

Inductive result (A : Type) : Type :=
| Ok (a : A)
| Raise (e : exn).
Arguments Ok {A} a.
Arguments Raise {A} e.

(** A computation on the file system. What was written before an
    exception stays written. *)
Definition M (A : Type) : Type := FS -> result A * FS.

Definition ret {A} (a : A) : M A := fun fs => (Ok a, fs).
Definition raise {A} (e : exn) : M A := fun fs => (Raise e, fs).
Definition bind {A B} (m : M A) (k : A -> M B) : M B :=
  fun fs => match m fs with
            | (Ok a, fs') => k a fs'
            | (Raise e, fs') => (Raise e, fs')
            end.

Declare Scope py_scope.
Delimit Scope py_scope with py.
Notation "x <- m ;; k" := (bind m (fun x => k))
  (at level 100, m at next level, right associativity) : py_scope.
Notation "m ;;; k" := (bind m (fun _ => k))
  (at level 100, right associativity) : py_scope.

Local Open Scope py_scope.

(** [for x in l: body(x)]. *)
Fixpoint for_each {A} (l : list A) (body : A -> M unit) : M unit :=
  match l with
  | [] => ret tt
  | x :: r => body x ;;; for_each r body
  end.

(** [for x in l: acc = body(acc, x)]. *)
Fixpoint for_fold {A S} (l : list A) (body : S -> A -> M S) (acc : S) : M S :=
  match l with
  | [] => ret acc
  | x :: r => acc' <- body acc x ;; for_fold r body acc'
  end.

(** A collaborator's partial answer, [None] being its exception. *)
Definition external {A} (o : option A) : M A :=
  match o with
  | Some a => ret a
  | None => raise ExternalError
  end.

End Py.

Export Py.
Local Open Scope py_scope.

(** ** The operating system calls the source makes *)

Module OS.

Definition lift_os (f : FS -> option FS) : M unit :=
  fun fs => match f fs with
            | Some fs' => (Ok tt, fs')
            | None => (Raise OSError, fs)
            end.

(** [p.exists()]. *)
Definition path_exists (p : Path) : M bool := fun fs => (Ok (exists_ p fs), fs).

(** [Path.is_file(p)]. *)
Definition path_is_file (p : Path) : M bool := fun fs => (Ok (is_file p fs), fs).

(** [os.mkdir(p)]: [p] must be new and its parent a directory. *)
Definition mkdir1 (p : Path) (fs : FS) : option FS :=
  if exists_ p fs then None
  else if is_dir (parent p) fs then Some (fs_insert p Dir fs)
  else None.

(** [p.mkdir()]. *)
Definition mkdir (p : Path) : M unit := lift_os (mkdir1 p).

(** [p.mkdir(exist_ok=True)]. *)
Definition mkdir_exist_ok (p : Path) : M unit :=
  lift_os (fun fs => if is_dir p fs then Some fs else mkdir1 p fs).

(** The ancestors [p.mkdir(parents=True)] makes on its way: each one
    is a directory already, or is new and made; a file in the way
    stops it. *)
Fixpoint make_dirs (ds : list Path) (fs : FS) : option FS :=
  match ds with
  | [] => Some fs
  | d :: r =>
      if is_dir d fs then make_dirs r fs
      else if exists_ d fs then None
      else make_dirs r (fs_insert d Dir fs)
  end.

(** [p.mkdir(parents=True)]: [p] must be new. *)
Definition mkdir_parents (p : Path) : M unit :=
  lift_os (fun fs =>
    if exists_ p fs then None
    else match make_dirs (ancestors p) fs with
         | Some fs' => Some (fs_insert p Dir fs')
         | None => None
         end).

(** Writing a whole file ([open(p,'w')], an export, a download): [p]
    must not be a directory and its parent must be one. *)
Definition write1 (p : Path) (data : string) (fs : FS) : option FS :=
  if is_dir p fs then None
  else if is_dir (parent p) fs then Some (fs_insert p (File data) fs)
  else None.

Definition write_file (p : Path) (data : string) : M unit :=
  lift_os (write1 p data).

(** Reading a whole file. *)
Definition read_file (p : Path) : M string :=
  fun fs => match node_at p fs with
            | Some (File data) => (Ok data, fs)
            | _ => (Raise OSError, fs)
            end.

(** [os.remove(p)]: [p] must be a file. *)
Definition remove (p : Path) : M unit :=
  lift_os (fun fs => if is_file p fs then Some (fs_delete p fs) else None).

(** [src.rename(dst)] for a file [src]: [dst] must not be a directory
    and its parent must be one; a file at [dst] is replaced. Renaming a
    directory is outside the model. *)
Definition rename (src dst : Path) : M unit :=
  lift_os (fun fs =>
    match node_at src fs with
    | Some (File data) => write1 dst data (fs_delete src fs)
    | _ => None
    end).

(** [p.name]. *)
Definition name (p : Path) : Path :=
  {| anchored := false;
     parts := match List.last (List.map Some (parts p)) None with
              | Some n => [n]
              | None => []
              end |}.

(** [shutil.copy(src, dst)]: [src] must be a file; a directory [dst]
    receives the file under the name of [src]; copying a file onto
    itself is refused. *)
Definition copy (src dst : Path) : M unit :=
  lift_os (fun fs =>
    match node_at src fs with
    | Some (File data) =>
        let dst := if is_dir dst fs then joinpath dst (name src) else dst in
        if bool_decide (src = dst) then None else write1 dst data fs
    | _ => None
    end).

(** [list(p.iterdir())]: [p] must be a directory. *)
Definition iterdir (p : Path) : M (list Path) :=
  fun fs => if is_dir p fs then (Ok (children p fs), fs)
            else (Raise OSError, fs).

End OS.

(** ** Python dictionaries from [str] to [str]

    Insertion order is kept: a new key goes last, a known key keeps its
    place. *)

Module Dict.

Definition dict : Type := list (string * string).

Fixpoint get (k : string) (d : dict) : option string :=
  match d with
  | [] => None
  | (k', v) :: r => if String.eqb k' k then Some v else get k r
  end.

(** [k in d]. *)
Definition mem (k : string) (d : dict) : bool :=
  match get k d with Some _ => true | None => false end.

(** [d[k] = v]. *)
Fixpoint set (k v : string) (d : dict) : dict :=
  match d with
  | [] => [(k, v)]
  | (k', v') :: r =>
      if String.eqb k' k then (k', v) :: r else (k', v') :: set k v r
  end.

Definition keys (d : dict) : list string := List.map fst d.
Definition values (d : dict) : list string := List.map snd d.

End Dict.

Export Dict.

(** ** Collaborators *)

(** pydub: an [AudioSegment] is its sequence of frames, [+] appends. *)
Class Pydub : Type := {
  frame : Type;
  (** [AudioSegment.silent(ms)] *)
  silent : nat -> list frame;
  (** decoding the bytes of a file, as [AudioSegment.from_file] does *)
  wav_decode : string -> option (list frame);
  (** encoding to wav bytes, as [export(format="wav")] does *)
  wav_encode : list frame -> string
}.

Abbreviation AudioSegment := (list frame).

(** json on dictionaries from [str] to [str]. *)
Class Json : Type := {
  json_dump : dict -> string;
  json_load : string -> option dict
}.

(** requests. *)
Record Response : Type := {
  ok : bool;
  status_code : nat;
  text : string
}.

Class Requests : Type := {
  requests_get : string -> option Response
}.

(** The loaded Silero model: its speakers, and [save_wav], which writes
    a wav file and answers the path it wrote and (here) the bytes. *)
Record Model : Type := {
  speakers : list string;
  save_wav : string -> string -> N -> option (string * string)
}.

(** torch: the bytes behind a URL, and the model inside a package. *)
Class Torch : Type := {
  download_url : string -> option string;
  load_pickle : string -> option Model
}.

(** ** Session manager *)

Module SessionManager.

Record t : Type := { sessions_path : Path }.

(** [__init__], lines 15-17. *)
Definition init (base_sessions_path : string) : M t :=
  let sessions_path := of_str base_sessions_path in
  OS.mkdir_exist_ok sessions_path ;;;
  ret {| sessions_path := sessions_path |}.

(** Lines 19-23. *)
Definition init_session_path (self : t) (session_id : string) : M Path :=
  let session_path := joinpath (sessions_path self) (of_str session_id) in
  present <- OS.path_exists session_path ;;
  (if negb present then OS.mkdir_parents session_path else ret tt) ;;;
  ret session_path.

(** Lines 25-33. [today] is what [time.strftime("%Y%m%d")] answers. *)
Definition create_session (self : t) (today : string)
    (session_id : option string) : M string :=
  match session_id with
  | None =>
      let date_str := today in
      let new_session_id := date_str in
      let session_path := joinpath (sessions_path self) (of_str new_session_id) in
      present <- OS.path_exists session_path ;;
      (if negb present then OS.mkdir_parents session_path else ret tt) ;;;
      ret new_session_id
  | Some new_session_id => ret new_session_id
  end.

(** Lines 35-40. *)
Definition get_session_path (self : t) (session_id : string) : M Path :=
  let session_path := joinpath (sessions_path self) (of_str session_id) in
  present <- OS.path_exists session_path ;;
  if negb present then raise SessionNotInitialized
  else ret session_path.

End SessionManager.

(** ** The TTS service *)

Module SileroTtsService.

Record t : Type := {
  sample_text : string;
  sample_path : Path;
  sample_rate : N;
  max_char_length : nat;
  langs : dict;
  model_file : Path;
  model : Model;
  session_manager : SessionManager.t
}.

Definition dquote : string := String "034"%char EmptyString.

(** The anchor opening every link of a directory listing. *)
Definition a_href : string := "<a href=" +:+ dquote.

Definition lang_base_url : string := "https://models.silero.ai/models/tts".

Definition cache_file : Path := of_str "langs.json".

(** Lines 187-189 of [list_languages]: the registry goes to the cache
    file and is answered. *)
Definition write_cache `{Json} (lang_urls : dict) : M dict :=
  OS.write_file cache_file (json_dump lang_urls) ;;;
  ret lang_urls.

(** The links of a listing, each cut at its first [stop]: the
    comprehension [[f.split(stop)[0] for f in text.split(a_href)][1:]]
    of lines 174 and 181. *)
Definition links (stop : ascii) (text : string) : list string :=
  List.tl (List.map (fun f => List.hd EmptyString (PyStr.split stop f))
                    (PyStr.split_str a_href text)).

(** Lines 184-186: the v3 files of one language enter the registry. *)
Definition add_v3_files (lang : string) (lang_files : list string)
    (lang_urls : dict) : dict :=
  fold_left
    (fun lang_urls lang_file =>
       if PyStr.startswith "v3" lang_file
       then Dict.set lang_file
              (lang_base_url +:+ "/" +:+ lang +:+ "/" +:+ lang_file) lang_urls
       else lang_urls)
    lang_files lang_urls.

(** [list_languages], lines 161-189. *)
Definition list_languages `{Json} `{Requests} : M dict :=
  let lang_file := cache_file in
  cached <- OS.path_exists lang_file ;;
  if cached then
    data <- OS.read_file lang_file ;;
    external (json_load data)
  else
    response <- external (requests_get lang_base_url) ;;
    let langs := links "/"%char (text response) in
    lang_urls <-
      for_fold langs
        (fun lang_urls lang =>
           response <- external (requests_get (lang_base_url +:+ "/" +:+ lang)) ;;
           if negb (ok response)
           then raise (FailedToGetLanguages (status_code response))
           else ret (add_v3_files lang (links "034"%char (text response)) lang_urls))
        [] ;;
    write_cache lang_urls.

(** [load_model], lines 73-88; it answers what it assigns to
    [self.model_file] and [self.model]. The lookup of line 78 and the
    membership test of line 75 are one [Dict.get]. *)
Definition load_model `{Torch} (langs : dict) (lang_model : string)
    : M (Path * Model) :=
  match Dict.get lang_model langs with
  | None => raise (LangNotInRegistry lang_model (Dict.values langs))
  | Some model_url =>
      let model_file := of_str lang_model in
      present <- OS.path_is_file model_file ;;
      (if negb present
       then data <- external (download_url model_url) ;;
            OS.write_file model_file data
       else ret tt) ;;;
      package <- OS.read_file model_file ;;
      model <- external (load_pickle package) ;;
      ret (model_file, model)
  end.

(** [self.load_model(lang)] on a constructed service. *)
Definition set_language `{Torch} (self : t) (lang_model : string) : M t :=
  loaded <- load_model (langs self) lang_model ;;
  ret {| sample_text := sample_text self;
         sample_path := sample_path self;
         sample_rate := sample_rate self;
         max_char_length := max_char_length self;
         langs := langs self;
         model_file := fst loaded;
         model := snd loaded;
         session_manager := session_manager self |}.

(** [__init__], lines 46-71. *)
Definition init `{Json} `{Requests} `{Torch}
    (sample_path lang : string) : M t :=
  let sample_text :=
    "The fallowed fallen swindle auspacious goats in portable power stations." in
  let sample_path := of_str sample_path in
  present <- OS.path_exists sample_path ;;
  (if negb present then OS.mkdir sample_path else ret tt) ;;;
  let sample_rate := 48000%N in
  let max_char_length := 600 in
  langs <- list_languages ;;
  loaded <- load_model langs lang ;;
  session_manager <- SessionManager.init "sessions" ;;
  ret {| sample_text := sample_text;
         sample_path := sample_path;
         sample_rate := sample_rate;
         max_char_length := max_char_length;
         langs := langs;
         model_file := fst loaded;
         model := snd loaded;
         session_manager := session_manager |}.

(** [Path(self.model.save_wav(text=..., speaker=..., sample_rate=...))]:
    the model writes its wav file and the path comes back. *)
Definition model_save_wav (self : t) (text speaker : string) : M Path :=
  out <- external (save_wav (model self) text speaker (sample_rate self)) ;;
  OS.write_file (of_str (fst out)) (snd out) ;;;
  ret (of_str (fst out)).

(** [AudioSegment.from_file(str(p))]. *)
Definition from_file `{Pydub} (p : Path) : M AudioSegment :=
  data <- OS.read_file p ;;
  external (wav_decode data).

(** [seg.export(p, format="wav")]. *)
Definition export `{Pydub} (seg : AudioSegment) (p : Path) : M unit :=
  OS.write_file p (wav_encode seg).

(** [split_text], lines 114-130. *)
Definition split_text (self : t) (text : string) : list string :=
  Chunker.split_text (max_char_length self) text.

(** The body of the loop of lines 99-102. *)
Definition add_chunk `{Pydub} (self : t) (speaker : string)
    (combined_wav : AudioSegment) (chunk : string) : M AudioSegment :=
  audio_path <- model_save_wav self chunk speaker ;;
  let combined_wav := combined_wav ++ silent 500 in
  segment <- from_file audio_path ;;
  ret (combined_wav ++ segment).

(** [generate], lines 90-112. [now] is what [int(time.time())] answers
    when the file is named. *)
Definition generate `{Pydub} (self : t) (now : N)
    (speaker text session : string) : M Path :=
  session_path <- SessionManager.get_session_path (session_manager self) session ;;
  if (max_char_length self <? String.length text)%nat then
    let text_chunks := split_text self text in
    combined_wav <- for_fold text_chunks (add_chunk self speaker) [] ;;
    let final_audio_name :=
      "tts_" +:+ speaker +:+ "_" +:+ session +:+ "_" +:+ pretty now
      +:+ "_combined.wav" in
    let audio_path := joinpath session_path (of_str final_audio_name) in
    export combined_wav audio_path ;;;
    ret audio_path
  else
    audio_path <- model_save_wav self text speaker ;;
    let dst :=
      joinpath session_path
        (of_str ("tts_" +:+ speaker +:+ "_" +:+ session +:+ "_" +:+ pretty now
                 +:+ ".wav")) in
    OS.copy audio_path dst ;;;
    ret audio_path.

(** [get_speakers], lines 136-138. *)
Definition get_speakers (self : t) : list string := speakers (model self).

(** The body of the loop of lines 147-152. *)
Definition make_sample (self : t) (speaker : string) : M unit :=
  let sample_name := joinpath (sample_path self) (of_str (speaker +:+ ".wav")) in
  present <- OS.path_exists sample_name ;;
  if present then ret tt
  else
    audio <- model_save_wav self (sample_text self) speaker ;;
    OS.rename audio (joinpath (sample_path self) sample_name).

(** [generate_samples], lines 140-153. *)
Definition generate_samples (self : t) : M unit :=
  files <- OS.iterdir (sample_path self) ;;
  for_each files (fun file => OS.remove (joinpath (sample_path self) file)) ;;;
  for_each (speakers (model self)) (make_sample self).

(** [update_sample_text], lines 155-159; [None] and [""] are falsy. *)
Definition update_sample_text (self : t) (text : option string) : t :=
  match text with
  | None | Some EmptyString => self
  | Some text =>
      {| sample_text := text;
         sample_path := sample_path self;
         sample_rate := sample_rate self;
         max_char_length := max_char_length self;
         langs := langs self;
         model_file := model_file self;
         model := model self;
         session_manager := session_manager self |}
  end.

End SileroTtsService.

(** ** A JSON codec

    A model of [json.dump] and [json.load] on dictionaries from [str]
    to [str], a character being one [ascii], so a code point below 256.
    An object is written as [json.dump] writes it by default, with
    [", "] between its members and [": "] after a key; inside a string
    the quote, the backslash and the control characters that have a
    short escape go behind a backslash, and every other character
    outside the printable ASCII range is written as a [u] escape of
    four hexadecimal digits. The reader takes what [json.load] takes of
    an object of strings: white space between the tokens, every escape
    of JSON, no raw control character inside a string. An object with a
    value that is not a string, and an escape of a code point from 256
    on, are not values of this model: the reader answers [None] for
    them. *)

Module JsonCodec.

Definition dq : ascii := "034"%char.
Definition bs : ascii := "092"%char.

(** The digit of a value below 16, as [format(n, "04x")] writes it. *)
Definition hex_digit (n : N) : ascii :=
  if (n <? 10)%N then ascii_of_N (48 + n) else ascii_of_N (87 + n).

(** What [json.dump] writes for one character (ESCAPE_ASCII and
    ESCAPE_DCT of json.encoder). *)
Definition escape_char (c : ascii) : string :=
  let n := N_of_ascii c in
  if Ascii.eqb c dq then String bs (String dq EmptyString)
  else if Ascii.eqb c bs then String bs (String bs EmptyString)
  else if (n =? 8)%N then String bs "b"
  else if (n =? 12)%N then String bs "f"
  else if (n =? 10)%N then String bs "n"
  else if (n =? 13)%N then String bs "r"
  else if (n =? 9)%N then String bs "t"
  else if ((32 <=? n) && (n <=? 126))%N then String c EmptyString
  else String bs
         ("u00" +:+ String (hex_digit (n / 16))
                      (String (hex_digit (n mod 16)) EmptyString)).

Fixpoint escape (s : string) : string :=
  match s with
  | EmptyString => EmptyString
  | String c r => escape_char c +:+ escape r
  end.

Definition quoted (s : string) : string :=
  String dq (escape s +:+ String dq EmptyString).

Fixpoint dump_items (d : dict) : string :=
  match d with
  | [] => EmptyString
  | (k, v) :: r =>
      quoted k +:+ ": " +:+ quoted v
      +:+ match r with [] => EmptyString | _ => ", " +:+ dump_items r end
  end.

Definition dump (d : dict) : string := "{" +:+ dump_items d +:+ "}".

(** The white space of JSON: space, tab, line feed, carriage return. *)
Definition is_ws (c : ascii) : bool :=
  let n := N_of_ascii c in
  ((n =? 32) || (n =? 9) || (n =? 10) || (n =? 13))%N.

(** The value of a hexadecimal digit, of either case. *)
Definition hex_value (c : ascii) : option N :=
  let n := N_of_ascii c in
  if ((48 <=? n) && (n <=? 57))%N then Some (n - 48)%N
  else if ((97 <=? n) && (n <=? 102))%N then Some (n - 87)%N
  else if ((65 <=? n) && (n <=? 70))%N then Some (n - 55)%N
  else None.

(** Where the reader stands inside a string: among plain characters,
    behind a backslash, or in a [u] escape with [todo] digits to read
    and the [value] of the digits read. *)
Inductive esc : Type :=
| Plain
| Slash
| Hex (todo : nat) (value : N).

Definition snoc (s : string) (c : ascii) : string := s +:+ String c EmptyString.

(** One character inside a string (py_scanstring of json.decoder, in
    strict mode): the string goes on, with the characters [acc] read so
    far, or it is closed and [acc] is its value. *)
Definition scan (e : esc) (acc : string) (c : ascii)
    : option (esc * string + string) :=
  match e with
  | Plain =>
      if Ascii.eqb c dq then Some (inr acc)
      else if Ascii.eqb c bs then Some (inl (Slash, acc))
      else if (N_of_ascii c <? 32)%N then None
      else Some (inl (Plain, snoc acc c))
  | Slash =>
      if Ascii.eqb c dq || Ascii.eqb c bs || Ascii.eqb c "/"
      then Some (inl (Plain, snoc acc c))
      else if Ascii.eqb c "b" then Some (inl (Plain, snoc acc "008"))
      else if Ascii.eqb c "f" then Some (inl (Plain, snoc acc "012"))
      else if Ascii.eqb c "n" then Some (inl (Plain, snoc acc "010"))
      else if Ascii.eqb c "r" then Some (inl (Plain, snoc acc "013"))
      else if Ascii.eqb c "t" then Some (inl (Plain, snoc acc "009"))
      else if Ascii.eqb c "u" then Some (inl (Hex 4 0%N, acc))
      else None
  | Hex todo value =>
      match hex_value c with
      | None => None
      | Some h =>
          let value := (16 * value + h)%N in
          match todo with
          | S (S k) => Some (inl (Hex (S k) value, acc))
          | _ =>
              if (value <? 256)%N
              then Some (inl (Plain, snoc acc (ascii_of_N value)))
              else None
          end
      end
  end.

(** The characters of [s] read one after the other inside a string
    that they do not close. *)
Fixpoint scans (e : esc) (acc : string) (s : string) : option (esc * string) :=
  match s with
  | EmptyString => Some (e, acc)
  | String c r =>
      match scan e acc c with
      | Some (inl (e', acc')) => scans e' acc' r
      | _ => None
      end
  end.

(** Where the reader of an object stands. *)
Inductive pstate : Type :=
| PStart
| PKey0 (first : bool)
| PKey (acc : string) (e : esc)
| PColon (k : string)
| PVal0 (k : string)
| PVal (k acc : string) (e : esc)
| PNext
| PDone.

Fixpoint load_go (st : pstate) (d : dict) (s : string) : option dict :=
  match s with
  | EmptyString => match st with PDone => Some d | _ => None end
  | String c r =>
      match st with
      | PStart =>
          if is_ws c then load_go PStart d r
          else if Ascii.eqb c "{" then load_go (PKey0 true) d r
          else None
      | PKey0 first =>
          if is_ws c then load_go (PKey0 first) d r
          else if Ascii.eqb c dq then load_go (PKey EmptyString Plain) d r
          else if first && Ascii.eqb c "}" then load_go PDone d r
          else None
      | PKey acc e =>
          match scan e acc c with
          | Some (inl (e', acc')) => load_go (PKey acc' e') d r
          | Some (inr k) => load_go (PColon k) d r
          | None => None
          end
      | PColon k =>
          if is_ws c then load_go (PColon k) d r
          else if Ascii.eqb c ":" then load_go (PVal0 k) d r
          else None
      | PVal0 k =>
          if is_ws c then load_go (PVal0 k) d r
          else if Ascii.eqb c dq then load_go (PVal k EmptyString Plain) d r
          else None
      | PVal k acc e =>
          match scan e acc c with
          | Some (inl (e', acc')) => load_go (PVal k acc' e') d r
          | Some (inr v) => load_go PNext (Dict.set k v d) r
          | None => None
          end
      | PNext =>
          if is_ws c then load_go PNext d r
          else if Ascii.eqb c "," then load_go (PKey0 false) d r
          else if Ascii.eqb c "}" then load_go PDone d r
          else None
      | PDone => if is_ws c then load_go PDone d r else None
      end
  end.

Definition load (s : string) : option dict := load_go PStart [] s.

(** json as this codec. *)
Definition codec : Json := {| json_dump := dump; json_load := load |}.

End JsonCodec.

(** ** The HTTP endpoints of [server.py]

    The endpoints that work on the service object. [today] and [now]
    are what the clock answers during the request. *)

Module Server.

(** The request body of [/tts/generate], lines 40-43. *)
Record Voice : Type := {
  speaker : string;
  text : string;
  session : option string
}.

(** What an endpoint answers: its value, or the [HTTPException] it
    raises, whose detail names the speaker and the exception caught. *)
Inductive response (A : Type) : Type :=
| Sent (a : A)
| HTTPException (status_code : nat) (speaker : string) (cause : exn).
Arguments Sent {A} a.
Arguments HTTPException {A} status_code speaker cause.

(** The [try] block of [generate], lines 68-75. A path is truthy, so
    line 74 runs whenever line 72 has answered. *)
Definition generate_try `{Pydub} (tts_service : SileroTtsService.t)
    (today : string) (now : N) (voice : Voice) : M Path :=
  let sessions := SileroTtsService.session_manager tts_service in
  session_id <-
    match session voice with
    | None => SessionManager.create_session sessions today None
    | Some session_id =>
        existing_session_id <- SessionManager.get_session_path sessions session_id ;;
        SessionManager.init_session_path sessions session_id ;;;
        ret session_id
    end ;;
  SileroTtsService.generate tts_service now (speaker voice) (text voice) session_id.

(** [generate], lines 65-79: the file to send, or the exception caught
    as a 500. *)
Definition generate `{Pydub} (tts_service : SileroTtsService.t)
    (today : string) (now : N) (voice : Voice) (fs : FS) : response Path * FS :=
  match generate_try tts_service today now voice fs with
  | (Ok audio, fs') => (Sent audio, fs')
  | (Raise e, fs') => (HTTPException 500 (speaker voice) e, fs')
  end.

(** [generate_samples], lines 85-89: the service with its sample text
    updated, and the run of its [generate_samples]. *)
Definition generate_samples (tts_service : SileroTtsService.t)
    (sample_text : option string) : SileroTtsService.t * M unit :=
  let tts_service := SileroTtsService.update_sample_text tts_service sample_text in
  (tts_service, SileroTtsService.generate_samples tts_service).

(** [get_languages], lines 96-98. *)
Definition get_languages (tts_service : SileroTtsService.t) : list string :=
  Dict.keys (SileroTtsService.langs tts_service).

(** [set_language], lines 100-103. *)
Definition set_language `{Torch} (tts_service : SileroTtsService.t)
    (id : string) : M SileroTtsService.t :=
  SileroTtsService.set_language tts_service id.

End Server.

(** ** Concrete collaborators and states for the examples *)

Module Demo.

(** A session manager over [sessions], and a disk that holds only that
    directory. *)
Definition sm : SessionManager.t :=
  {| SessionManager.sessions_path := of_str "sessions" |}.

Definition disk : FS := [(of_str "sessions", Dir)].

(** The disk once the session of 3 November 2026 has its directory. *)
Definition today : string := "20261103".

Definition disk_dated : FS := fs_insert (of_str "sessions/20261103") Dir disk.

(** json as the codec above. *)
Definition json : Json := JsonCodec.codec.

(** A remote index with two languages; English has a v3 model and an
    older one, German a v3 model. *)
Definition href (target : string) : string :=
  SileroTtsService.a_href +:+ target +:+ String JsonCodec.dq EmptyString
  +:+ ">" +:+ target +:+ "</a>".

Definition url_of (path : string) : string :=
  SileroTtsService.lang_base_url +:+ path.

Definition get (url : string) : option Response :=
  if String.eqb url (url_of EmptyString)
  then Some {| ok := true; status_code := 200;
               text := "<pre>" +:+ href "en/" +:+ href "de/" +:+ "</pre>" |}
  else if String.eqb url (url_of "/en")
  then Some {| ok := true; status_code := 200;
               text := "<pre>" +:+ href "v3_en.pt" +:+ href "v2_en.pt" +:+ "</pre>" |}
  else if String.eqb url (url_of "/de")
  then Some {| ok := true; status_code := 200;
               text := "<pre>" +:+ href "v3_de.pt" +:+ "</pre>" |}
  else Some {| ok := false; status_code := 404; text := EmptyString |}.

Definition requests : Requests := {| requests_get := get |}.

Definition registry : dict :=
  [("v3_en.pt", url_of "/en/v3_en.pt"); ("v3_de.pt", url_of "/de/v3_de.pt")].

(** A model with two speakers. It refuses the empty text, writes every
    wav to [test.wav] and answers that path. *)
Definition tts_model : Model :=
  {| speakers := ["en_0"; "en_1"];
     save_wav := fun text speaker _ =>
       match text with
       | EmptyString => None
       | _ => Some ("test.wav", "RIFF " +:+ speaker +:+ ": " +:+ text)
       end |}.

Definition torch : Torch :=
  {| download_url := fun url => Some ("package from " +:+ url);
     load_pickle := fun _ => Some tts_model |}.

(** An audio codec whose frames are the bytes of the file, with one
    zero frame for a millisecond of silence. *)
Definition pydub : Pydub :=
  {| frame := ascii;
     silent := fun ms => List.repeat "000"%char ms;
     wav_decode := fun data => Some (list_ascii_of_string data);
     wav_encode := string_of_list_ascii |}.

(** The service as [server.py] builds it, its samples under an absolute
    path. *)
Definition service : SileroTtsService.t :=
  {| SileroTtsService.sample_text :=
       "The fallowed fallen swindle auspacious goats in portable power stations.";
     SileroTtsService.sample_path := of_str "/srv/silero_api_server/samples";
     SileroTtsService.sample_rate := 48000%N;
     SileroTtsService.max_char_length := 600;
     SileroTtsService.langs := registry;
     SileroTtsService.model_file := of_str "v3_en.pt";
     SileroTtsService.model := tts_model;
     SileroTtsService.session_manager := sm |}.

(** A text of 701 characters in two words, and a short one. *)
Definition long_text : string :=
  PyStr.times "a" 300 +:+ " " +:+ PyStr.times "b" 400.

Definition short_text : string := "Hello there.".

(** What [int(time.time())] answers in the examples. *)
Definition now : N := 1793700000%N.

(** A disk whose sample directory holds a stale sample and a stray
    file. *)
Definition disk_samples : FS :=
  [(of_str "/srv/silero_api_server/samples", Dir);
   (of_str "/srv/silero_api_server/samples/en_0.wav", File "stale");
   (of_str "/srv/silero_api_server/samples/notes.txt", File "stray")].

(** The same service built on the relative sample path [samples], and
    a disk for it. *)
Definition service_relative : SileroTtsService.t :=
  {| SileroTtsService.sample_text := SileroTtsService.sample_text service;
     SileroTtsService.sample_path := of_str "samples";
     SileroTtsService.sample_rate := 48000%N;
     SileroTtsService.max_char_length := 600;
     SileroTtsService.langs := registry;
     SileroTtsService.model_file := of_str "v3_en.pt";
     SileroTtsService.model := tts_model;
     SileroTtsService.session_manager := sm |}.

Definition disk_relative : FS :=
  [(of_str "samples", Dir); (of_str "samples/en_0.wav", File "stale")].

End Demo.

(** ** The vocabulary of the properties *)

Module Spec.

(** What the loop of [split_text] has assembled so far, read as one
    string. *)
Definition flat (st : list string * string) : string :=
  PyStr.join (fst st) +:+ snd st.

(** A chunk that is empty or ends in a space closes its last word. *)
Definition closed (c : string) : Prop :=
  c = EmptyString \/ exists a, c = a +:+ String PyStr.space EmptyString.

(** A chunk within the budget [B], or one piece of the text alone,
    padded, that the budget cannot hold. *)
Definition fits (B : nat) (T : string) (c : string) : Prop :=
  String.length c <= B
  \/ exists w, List.In w (PyStr.split PyStr.space T)
              /\ c = Chunker.padded w /\ B < String.length c.

(** The directory of a session id. *)
Definition session_dir (self : SessionManager.t) (session_id : string) : Path :=
  joinpath (SessionManager.sessions_path self) (of_str session_id).

(** The name of a generated file, lines 104 and 109. *)
Definition audio_name (speaker session : string) (now : N) (suffix : string)
    : string :=
  "tts_" +:+ speaker +:+ "_" +:+ session +:+ "_" +:+ pretty now +:+ suffix.

(** What the model and the codec make of one text: the segment decoded
    from the bytes the model wrote for it. *)
Definition synthesized `{Pydub} (self : SileroTtsService.t) (speaker : string)
    (text : string) (segment : AudioSegment) : Prop :=
  exists out data,
    save_wav (SileroTtsService.model self) text speaker
      (SileroTtsService.sample_rate self) = Some (out, data)
    /\ wav_decode data = Some segment.

(** The specification's wording of the combined audio: the segments in
    order, the silence between consecutive ones only. *)
Fixpoint silence_between `{Pydub} (segments : list AudioSegment) : AudioSegment :=
  match segments with
  | [] => []
  | [segment] => segment
  | segment :: rest => segment ++ silent 500 ++ silence_between rest
  end.

Section Samples.

Import SileroTtsService.

Variable self : SileroTtsService.t.

(** The file of a speaker's sample, line 148. *)
Definition sample_of (speaker : string) : Path :=
  joinpath (sample_path self) (of_str (speaker +:+ ".wav")).

(** A speaker whose name is one path component. *)
Definition plain (speaker : string) : Prop :=
  PyStr.contains "/" speaker = false.

(** A sample that holds what the model makes of the sample text. *)
Definition fresh_sample (fs : FS) (speaker : string) : Prop :=
  exists out data,
    save_wav (model self) (sample_text self) speaker (sample_rate self)
    = Some (out, data)
    /\ fs_lookup (sample_of speaker) fs = Some (File data).

(** The sample directory while the loop of lines 147-152 runs: only
    samples of the speakers seen so far, each of them fresh. *)
Definition samples_inv (seen : list string) (fs : FS) : Prop :=
  (forall p, List.In p (children (sample_path self) fs) ->
             exists speaker, List.In speaker seen /\ p = sample_of speaker)
  /\ List.Forall (fresh_sample fs) seen.

(** The model writes its file somewhere else than into the sample
    directory. *)
Definition writes_elsewhere (speaker : string) : Prop :=
  forall out data,
    save_wav (model self) (sample_text self) speaker (sample_rate self)
    = Some (out, data) ->
    parent (of_str out) <> sample_path self.



End Samples.

End Spec.

Export Spec.

(** ** More vocabulary *)

Module Spec2.

(** A chunk that ends in a space. *)
Definition ends_in_space (c : string) : Prop :=
  PyStr.endswith PyStr.space c = true.

(** No space-delimited piece of the text reaches the budget: each one
    fits a chunk together with its trailing space. *)
Definition no_long_word (B : nat) (T : string) : Prop :=
  List.Forall (fun w => String.length w < B) (PyStr.split PyStr.space T).

(** Every two consecutive elements of a list are related. *)
Fixpoint consecutive {A} (R : A -> A -> Prop) (l : list A) : Prop :=
  match l with
  | [] => True
  | x :: r =>
      match r with
      | [] => True
      | y :: _ => R x y /\ consecutive R r
      end
  end.

(** Two chunks too long to be one: together they exceed the budget. *)
Definition apart (B : nat) (c c' : string) : Prop :=
  B < String.length c + String.length c'.







(** A computation that removes nothing: what existed before it exists
    after it, whether it answers or raises. *)
Definition keeps {A} (m : M A) : Prop :=
  forall fs r fs' q,
    m fs = (r, fs') -> exists_ q fs = true -> exists_ q fs' = true.

(** A computation that raises only exceptions of a kind. *)
Definition raises_only {A} (E : exn -> Prop) (m : M A) : Prop :=
  forall fs e fs', m fs = (Raise e, fs') -> E e.

(** A computation that leaves the file system as it is. *)
Definition readonly {A} (m : M A) : Prop :=
  forall fs r fs', m fs = (r, fs') -> fs' = fs.

(** A computation that leaves the file system as it is when it
    raises. *)
Definition atomic {A} (m : M A) : Prop :=
  forall fs e fs', m fs = (Raise e, fs') -> fs' = fs.

(** The exceptions of the operating system and of the collaborators. *)
Definition from_below (e : exn) : Prop := e = OSError \/ e = ExternalError.

(** A registry made from the languages of an index: no key twice, every
    key the name of a v3 file, every value the URL of that file under
    one of the languages. *)
Definition registry_of (langs : list string) (d : dict) : Prop :=
  List.NoDup (Dict.keys d)
  /\ forall k v, List.In (k, v) d ->
       PyStr.startswith "v3" k = true
       /\ exists lang, List.In lang langs
            /\ v = SileroTtsService.lang_base_url +:+ "/" +:+ lang +:+ "/" +:+ k.

(** The body of the loop of lines 177-186 of [list_languages]. *)
Definition visit `{Requests} (lang_urls : dict) (lang : string) : M dict :=
  response <-
    external (requests_get (SileroTtsService.lang_base_url +:+ "/" +:+ lang)) ;;
  if negb (ok response)
  then raise (FailedToGetLanguages (status_code response))
  else ret (SileroTtsService.add_v3_files lang
              (SileroTtsService.links "034"%char (text response)) lang_urls).

End Spec2.

Export Spec2.

(** ** More concrete states for the examples *)

Module Cases.

(** The demo disk once the session [alice] has been initialized. *)
Definition disk_alice : FS := fs_insert (of_str "sessions/alice") Dir Demo.disk.


(** An empty disk, and the disk a new session manager leaves. *)
Definition disk_empty : FS := [].

(** A remote index that lists English and French and has no listing
    for French. *)
Definition get_broken (url : string) : option Response :=
  if String.eqb url (Demo.url_of EmptyString)
  then Some {| ok := true; status_code := 200;
               text := "<pre>" +:+ Demo.href "en/" +:+ Demo.href "fr/" +:+ "</pre>" |}
  else if String.eqb url (Demo.url_of "/en")
  then Some {| ok := true; status_code := 200;
               text := "<pre>" +:+ Demo.href "v3_en.pt" +:+ "</pre>" |}
  else Some {| ok := false; status_code := 503; text := EmptyString |}.

Definition requests_broken : Requests := {| requests_get := get_broken |}.

(** A network that answers nothing, and a torch that cannot download. *)
Definition requests_down : Requests := {| requests_get := fun _ => None |}.

Definition torch_offline : Torch :=
  {| download_url := fun _ => None;
     load_pickle := @load_pickle Demo.torch |}.

(** The disk a first start of the service leaves. *)
Definition disk_started : FS :=
  snd (@SileroTtsService.init Demo.json Demo.requests Demo.torch
         "/srv/silero_api_server//samples" "v3_en.pt"
         [(of_str "/srv/silero_api_server", Dir)]).





End Cases.

(** * Properties *)

(** One step of a computation in hypothesis [H]: the first call is run,
    its exception, if any, contradicts the success [H] states, and its
    answer [a], the file system [fs1] it leaves and the equation [E] of
    the call remain. *)
Ltac step_in H a fs1 E :=
  match type of H with
  | context [let (_, _) := ?m in _] =>
      let e := fresh "e" in
      destruct m as [[a|e] fs1] eqn:E; [| discriminate H]
  end.

Tactic Notation "step_in" hyp(H) "as" simple_intropattern(a) ident(fs1) ident(E) :=
  step_in H a fs1 E.

(** ** Strings *)

Section StringFacts.

Lemma append_nil_l (s : string) : EmptyString +:+ s = s.
Proof. reflexivity. Qed.

Lemma append_cons (c : ascii) (s t : string) :
  String c s +:+ t = String c (s +:+ t).
Proof. reflexivity. Qed.

Lemma append_nil_r (s : string) : s +:+ EmptyString = s.
Proof.
  induction s as [|c s IH]; [reflexivity |].
  now rewrite append_cons, IH.
Qed.

Lemma append_assoc (a b c : string) : (a +:+ b) +:+ c = a +:+ (b +:+ c).
Proof.
  induction a as [|x a IH]; [reflexivity |].
  now rewrite !append_cons, IH.
Qed.

Lemma length_append (a b : string) :
  String.length (a +:+ b) = String.length a + String.length b.
Proof.
  induction a as [|x a IH]; [reflexivity |].
  rewrite append_cons. simpl. now rewrite IH.
Qed.

Lemma length_times (c : ascii) (n : nat) : String.length (PyStr.times c n) = n.
Proof. induction n as [|n IH]; simpl; [reflexivity | now rewrite IH]. Qed.

Lemma length_replace (a b : ascii) (s : string) :
  String.length (PyStr.replace a b s) = String.length s.
Proof. induction s as [|c s IH]; simpl; [reflexivity | now rewrite IH]. Qed.

Lemma replace_append (a b : ascii) (s t : string) :
  PyStr.replace a b (s +:+ t) = PyStr.replace a b s +:+ PyStr.replace a b t.
Proof.
  induction s as [|c s IH]; [reflexivity |].
  rewrite append_cons. simpl. now rewrite append_cons, IH.
Qed.

(** Once the newlines are spaces there is none left to replace. *)
Lemma replace_newline_idem (s : string) :
  PyStr.replace PyStr.newline PyStr.space
    (PyStr.replace PyStr.newline PyStr.space s)
  = PyStr.replace PyStr.newline PyStr.space s.
Proof.
  induction s as [|c s IH]; simpl; [reflexivity |].
  rewrite IH. f_equal.
  destruct (Ascii.eqb c PyStr.newline) eqn:E; [reflexivity | now rewrite E].
Qed.

Lemma split_not_nil (sep : ascii) (s : string) : PyStr.split sep s <> [].
Proof.
  destruct s as [|c s]; simpl; [discriminate |].
  destruct (Ascii.eqb c sep); [discriminate |].
  destruct (PyStr.split sep s); discriminate.
Qed.

(** A separator between two strings separates their pieces. *)
Lemma split_append_sep (sep : ascii) (a b : string) :
  PyStr.split sep (a +:+ String sep b) = PyStr.split sep a ++ PyStr.split sep b.
Proof.
  induction a as [|c a IH].
  - rewrite append_nil_l. simpl. now rewrite Ascii.eqb_refl.
  - rewrite append_cons. simpl.
    destruct (Ascii.eqb c sep); [now rewrite IH |].
    rewrite IH. pose proof (split_not_nil sep a) as Hne.
    destruct (PyStr.split sep a); [congruence | reflexivity].
Qed.

Lemma join_app (l1 l2 : list string) :
  PyStr.join (l1 ++ l2) = PyStr.join l1 +:+ PyStr.join l2.
Proof.
  induction l1 as [|x l1 IH]; simpl; [reflexivity |].
  now rewrite IH, append_assoc.
Qed.

End StringFacts.

(** ** Text chunker *)

Section ChunkerFacts.

Import Chunker.

Variable B : nat.

Local Abbreviation norm := (PyStr.replace PyStr.newline PyStr.space).

Lemma flat_step (st : list string * string) (word : string) :
  flat (split_step B st word) = flat st +:+ padded word.
Proof.
  destruct st as [cl cs]. unfold split_step, flat.
  destruct (B <? _)%nat; simpl.
  - rewrite join_app. simpl. now rewrite append_nil_r, append_nil_l.
  - now rewrite append_assoc.
Qed.

Lemma flat_loop (ws : list string) (st : list string * string) :
  flat (fold_left (split_step B) ws st)
  = flat st +:+ PyStr.join (List.map padded ws).
Proof.
  revert st. induction ws as [|w ws IH]; intros st; simpl.
  - now rewrite append_nil_r.
  - now rewrite IH, flat_step, append_assoc.
Qed.

Lemma join_padded_split (s : string) :
  PyStr.join (List.map padded (PyStr.split PyStr.space s))
  = norm s +:+ String PyStr.space EmptyString.
Proof.
  induction s as [|c s IH]; simpl; [reflexivity |].
  destruct (Ascii.eqb c PyStr.space) eqn:E.
  - apply Ascii.eqb_eq in E. subst c. simpl. rewrite IH.
    unfold padded. simpl. now rewrite !append_cons, append_nil_l.
  - pose proof (split_not_nil PyStr.space s) as Hne.
    destruct (PyStr.split PyStr.space s) as [|w ws]; [congruence |].
    simpl in *. rewrite append_cons, <- IH.
    unfold padded. simpl. now rewrite !append_cons.
Qed.

(** The chunks, joined, are the text with its newlines as spaces and
    one more space. *)
Lemma join_split_text (T : string) :
  PyStr.join (split_text B T) = norm T +:+ String PyStr.space EmptyString.
Proof.
  unfold split_text.
  pose proof (flat_loop (PyStr.split PyStr.space T) ([], EmptyString)) as H.
  destruct (fold_left _ _ _) as [cl cs]. unfold flat in H. simpl in H.
  rewrite join_padded_split, append_nil_l in H.
  destruct cs as [|c cs]; simpl.
  - now rewrite append_nil_r in H.
  - rewrite join_app. simpl. now rewrite append_nil_r.
Qed.

Lemma word_seq_nil : word_seq EmptyString = [].
Proof. reflexivity. Qed.

Lemma word_seq_space_append (a b : string) :
  word_seq (a +:+ String PyStr.space b) = word_seq a ++ word_seq b.
Proof.
  unfold word_seq. rewrite replace_append. simpl.
  now rewrite split_append_sep, List.filter_app.
Qed.

Lemma word_seq_closed_append (c b : string) :
  closed c -> word_seq (c +:+ b) = word_seq c ++ word_seq b.
Proof.
  intros [-> | [a ->]]; [reflexivity |].
  rewrite append_assoc, append_cons, append_nil_l.
  rewrite !word_seq_space_append, word_seq_nil.
  now rewrite List.app_nil_r.
Qed.

Lemma word_seq_join (l : list string) :
  List.Forall closed l ->
  List.concat (List.map word_seq l) = word_seq (PyStr.join l).
Proof.
  induction 1 as [|c l Hc _ IH]; simpl; [reflexivity |].
  now rewrite word_seq_closed_append, IH.
Qed.

Lemma word_seq_norm (s : string) : word_seq (norm s) = word_seq s.
Proof. unfold word_seq. now rewrite replace_newline_idem. Qed.

Lemma closed_append_padded (c word : string) : closed (c +:+ padded word).
Proof. right. exists (c +:+ norm word). unfold padded. now rewrite append_assoc. Qed.

Lemma closed_step (st : list string * string) (word : string) :
  List.Forall closed (fst st) -> closed (snd st) ->
  List.Forall closed (fst (split_step B st word))
  /\ closed (snd (split_step B st word)).
Proof.
  destruct st as [cl cs]. simpl. intros Hcl Hcs. unfold split_step.
  destruct (B <? _)%nat; simpl; split;
    auto using closed_append_padded.
  apply List.Forall_app. split; [assumption | now constructor].
Qed.

Lemma closed_loop (ws : list string) (st : list string * string) :
  List.Forall closed (fst st) -> closed (snd st) ->
  List.Forall closed (fst (fold_left (split_step B) ws st))
  /\ closed (snd (fold_left (split_step B) ws st)).
Proof.
  revert st. induction ws as [|w ws IH]; intros st Hcl Hcs; simpl; [now split |].
  destruct (closed_step st w Hcl Hcs) as [H1 H2]. now apply IH.
Qed.

Lemma closed_split_text (T : string) : List.Forall closed (split_text B T).
Proof.
  unfold split_text.
  destruct (closed_loop (PyStr.split PyStr.space T) ([], EmptyString))
    as [Hcl Hcs]; [constructor | now left |].
  destruct (fold_left _ _ _) as [cl cs]. simpl in *.
  destruct (0 <? _)%nat; [| assumption].
  apply List.Forall_app. split; [assumption | now constructor].
Qed.

Lemma fits_step (T : string) (st : list string * string) (word : string) :
  List.In word (PyStr.split PyStr.space T) ->
  List.Forall (fits B T) (fst st) -> fits B T (snd st) ->
  List.Forall (fits B T) (fst (split_step B st word))
  /\ fits B T (snd (split_step B st word)).
Proof.
  destruct st as [cl cs]. simpl. intros Hin Hcl Hcs. unfold split_step.
  destruct (B <? _)%nat eqn:E; simpl; split.
  - apply List.Forall_app. split; [assumption | now constructor].
  - rewrite append_nil_l.
    destruct (Nat.le_gt_cases (String.length (padded word)) B) as [Hle | Hgt].
    + now left.
    + right. exists word. auto.
  - assumption.
  - left. apply Nat.ltb_ge in E. exact E.
Qed.

Lemma fits_loop (T : string) (ws : list string) (st : list string * string) :
  (forall w, List.In w ws -> List.In w (PyStr.split PyStr.space T)) ->
  List.Forall (fits B T) (fst st) -> fits B T (snd st) ->
  List.Forall (fits B T) (fst (fold_left (split_step B) ws st))
  /\ fits B T (snd (fold_left (split_step B) ws st)).
Proof.
  revert st. induction ws as [|w ws IH]; intros st Hws Hcl Hcs; simpl;
    [now split |].
  destruct (fits_step T st w) as [H1 H2]; auto using List.in_eq.
  apply IH; auto using List.in_cons.
Qed.

Lemma fits_split_text (T : string) : List.Forall (fits B T) (split_text B T).
Proof.
  unfold split_text.
  destruct (fits_loop T (PyStr.split PyStr.space T) ([], EmptyString))
    as [Hcl Hcs]; [auto | constructor | left; simpl; lia |].
  destruct (fold_left _ _ _) as [cl cs]. simpl in *.
  destruct (0 <? _)%nat; [| assumption].
  apply List.Forall_app. split; [assumption | now constructor].
Qed.

(** The loop leaves a non-empty [chunk_str] once it has seen a word. *)
Lemma pending_step (st : list string * string) (word : string) :
  snd (split_step B st word) <> EmptyString.
Proof.
  destruct st as [cl cs]. unfold split_step, padded.
  destruct (B <? _)%nat; simpl; intros H;
    apply (f_equal String.length) in H;
    rewrite !length_append in H; simpl in H; lia.
Qed.

Lemma pending_loop (ws : list string) (st : list string * string) :
  ws <> [] -> snd (fold_left (split_step B) ws st) <> EmptyString.
Proof.
  revert st. induction ws as [|w ws IH]; intros st Hne; [congruence |].
  simpl. destruct ws as [|w' ws]; [apply pending_step |].
  apply IH. discriminate.
Qed.

(** [split_text] never answers the empty list. *)
Lemma split_text_not_nil (T : string) : split_text B T <> [].
Proof.
  unfold split_text.
  pose proof (pending_loop (PyStr.split PyStr.space T) ([], EmptyString)
                (split_not_nil _ _)) as H.
  destruct (fold_left _ _ _) as [cl cs]. simpl in H.
  destruct cs as [|c cs]; [congruence |]. simpl.
  destruct cl; discriminate.
Qed.

End ChunkerFacts.

(** C1, as amended. For every text [T] and budget [B], the chunks of
    [split_text] carry the word sequence of [T] in order (their word
    sequences, concatenated, are the word sequence of [T], newlines read
    as spaces; joined, the chunks are [T] with its newlines as spaces and
    one more space), and every chunk has at most [B] characters, except a
    chunk that is one space-delimited piece of [T] alone, with its
    newlines as spaces and its trailing space, when that is longer than
    [B]: a piece of [B] characters or more. *)
Theorem split_text_words_and_budget (B : nat) (T : string) :
  List.concat (List.map Chunker.word_seq (Chunker.split_text B T))
  = Chunker.word_seq T
  /\ PyStr.join (Chunker.split_text B T)
     = PyStr.replace PyStr.newline PyStr.space T +:+ String PyStr.space EmptyString
  /\ List.Forall
       (fun c =>
          String.length c <= B
          \/ exists w, List.In w (PyStr.split PyStr.space T)
                       /\ c = Chunker.padded w /\ B < String.length c)
       (Chunker.split_text B T).
Proof.
  split; [| split].
  - rewrite word_seq_join by apply closed_split_text.
    rewrite join_split_text.
    rewrite word_seq_space_append, word_seq_nil, List.app_nil_r.
    apply word_seq_norm.
  - apply join_split_text.
  - apply fits_split_text.
Qed.

(** C1 as the specification words it, refuted at the configured budget:
    after the word [a], a word of exactly 600 characters is not longer
    than the budget, yet its chunk, trailing space included, has 601. *)
Lemma split_text_budget_counterexample :
  let T := "a " +:+ PyStr.times "x" 600 in
  ~ (List.concat (List.map Chunker.word_seq (Chunker.split_text 600 T))
     = Chunker.word_seq T
     /\ List.Forall
          (fun c =>
             String.length c <= 600
             \/ exists w, Chunker.word_seq c = [w] /\ 600 < String.length w)
          (Chunker.split_text 600 T)).
Proof.
  intros T [_ H].
  assert (E : Chunker.split_text 600 T = ["a "; PyStr.times "x" 600 +:+ " "])
    by (vm_compute; reflexivity).
  rewrite E in H. clear E.
  apply List.Forall_inv_tail, List.Forall_inv in H.
  destruct H as [H | [w [Hw Hlen]]].
  - rewrite length_append, length_times in H. simpl in H. lia.
  - assert (E : Chunker.word_seq (PyStr.times "x" 600 +:+ " ")
                = [PyStr.times "x" 600]) by (vm_compute; reflexivity).
    assert (Hw' : w = PyStr.times "x" 600) by (rewrite E in Hw; congruence).
    rewrite Hw', length_times in Hlen. lia.
Qed.

(** C10 at a text [generate] hands to [split_text]: one word of 601
    characters. The loop appends the still empty [chunk_str] before the
    word, so the first chunk is empty and does not end in a space. *)
Lemma split_text_leading_empty_chunk :
  Chunker.split_text 600 (PyStr.times "x" 601)
  = [EmptyString; PyStr.times "x" 601 +:+ " "]
  /\ ~ List.Forall (fun c => PyStr.endswith PyStr.space c = true)
         (Chunker.split_text 600 (PyStr.times "x" 601)).
Proof.
  assert (E : Chunker.split_text 600 (PyStr.times "x" 601)
              = [EmptyString; PyStr.times "x" 601 +:+ " "])
    by (vm_compute; reflexivity).
  split; [exact E |].
  rewrite E. intros H. apply List.Forall_inv in H. discriminate H.
Qed.

(** What does hold of the shape of the chunks: there is at least one,
    each is empty or ends in a space, and the empty text gives the one
    chunk [" "] under any budget of at least one character. *)
Lemma split_text_shape (B : nat) (T : string) :
  Chunker.split_text B T <> []
  /\ List.Forall (fun c => c = EmptyString \/ PyStr.endswith PyStr.space c = true)
       (Chunker.split_text B T).
Proof.
  split; [apply split_text_not_nil |].
  eapply List.Forall_impl; [| apply closed_split_text].
  intros c [-> | [a ->]]; [now left | right].
  induction a as [|x a IH]; [reflexivity |].
  rewrite append_cons. simpl.
  destruct (a +:+ String PyStr.space EmptyString) eqn:E; [| exact IH].
  destruct a; discriminate E.
Qed.

Lemma split_text_empty (B : nat) :
  1 <= B -> Chunker.split_text B EmptyString = [" "].
Proof.
  intros HB. unfold Chunker.split_text. simpl.
  destruct (B <? 1)%nat eqn:E; [apply Nat.ltb_lt in E; lia | reflexivity].
Qed.

(** ** File system *)

Section FileSystemFacts.

Lemma fs_lookup_insert_eq (p : Path) (n : node) (fs : FS) :
  fs_lookup p (fs_insert p n fs) = Some n.
Proof. unfold fs_insert. simpl. now rewrite bool_decide_eq_true_2. Qed.

Lemma fs_lookup_delete_ne (p q : Path) (fs : FS) :
  p <> q -> fs_lookup q (fs_delete p fs) = fs_lookup q fs.
Proof.
  intros Hne. induction fs as [|[r n] fs IH]; simpl; [reflexivity |].
  destruct (bool_decide (r = p)) eqn:E; simpl.
  - apply bool_decide_eq_true in E. subst r.
    now rewrite bool_decide_eq_false_2.
  - now rewrite IH.
Qed.

Lemma fs_lookup_delete_eq (p : Path) (fs : FS) :
  fs_lookup p (fs_delete p fs) = None.
Proof.
  induction fs as [|[r n] fs IH]; simpl; [reflexivity |].
  destruct (bool_decide (r = p)) eqn:E; simpl; [assumption |].
  now rewrite E.
Qed.

Lemma fs_lookup_insert_ne (p q : Path) (n : node) (fs : FS) :
  p <> q -> fs_lookup q (fs_insert p n fs) = fs_lookup q fs.
Proof.
  intros Hne. unfold fs_insert. simpl.
  rewrite bool_decide_eq_false_2 by assumption.
  now apply fs_lookup_delete_ne.
Qed.

Lemma node_at_insert_eq (p : Path) (n : node) (fs : FS) :
  parts p <> [] -> node_at p (fs_insert p n fs) = Some n.
Proof.
  unfold node_at. destruct (parts p); [congruence |].
  intros _. apply fs_lookup_insert_eq.
Qed.

Lemma node_at_insert_dir (p : Path) (fs : FS) :
  node_at p (fs_insert p Dir fs) = Some Dir.
Proof.
  unfold node_at. destruct (parts p); [reflexivity |].
  apply fs_lookup_insert_eq.
Qed.

Lemma node_at_insert_ne (p q : Path) (n : node) (fs : FS) :
  p <> q -> node_at q (fs_insert p n fs) = node_at q fs.
Proof.
  intros Hne. unfold node_at. destruct (parts q); [reflexivity |].
  now apply fs_lookup_insert_ne.
Qed.


Lemma exists_true (p : Path) (fs : FS) :
  exists_ p fs = true <-> is_Some (node_at p fs).
Proof. unfold exists_. apply bool_decide_eq_true. Qed.


Lemma is_dir_true (p : Path) (fs : FS) :
  is_dir p fs = true <-> node_at p fs = Some Dir.
Proof. unfold is_dir. apply bool_decide_eq_true. Qed.

(** What exists and is not a regular file is a directory. *)
Lemma exists_not_file_is_dir (p : Path) (fs : FS) :
  exists_ p fs = true -> is_file p fs = false -> is_dir p fs = true.
Proof.
  rewrite exists_true, is_dir_true. unfold is_file.
  intros [[|data] ->]; [reflexivity | discriminate].
Qed.

(** A successful [mkdir(parents=True)] leaves a directory at its path. *)
Lemma mkdir_parents_is_dir (p : Path) (fs fs' : FS) :
  OS.mkdir_parents p fs = (Ok tt, fs') -> is_dir p fs' = true.
Proof.
  unfold OS.mkdir_parents, OS.lift_os.
  destruct (exists_ p fs) eqn:E; [discriminate |].
  destruct (OS.make_dirs _ fs) as [fs1|] eqn:E1; [| discriminate].
  intros [= <-]. apply is_dir_true, node_at_insert_dir.
Qed.

Lemma is_dir_exists (p : Path) (fs : FS) :
  is_dir p fs = true -> exists_ p fs = true.
Proof. rewrite is_dir_true, exists_true. intros ->. eauto. Qed.

End FileSystemFacts.

(** ** Session manager *)

Section SessionFacts.

Import SessionManager.

Variable self : SessionManager.t.

(** The guarded creation of lines 21-22 and 31-32. *)
Lemma ensure_dir (p : Path) (fs fs' : FS) :
  (if negb (exists_ p fs) then OS.mkdir_parents p else ret tt) fs
  = (Ok tt, fs') ->
  exists_ p fs' = true
  /\ (is_file p fs = false -> is_dir p fs' = true)
  /\ (exists_ p fs = true -> fs' = fs).
Proof.
  destruct (exists_ p fs) eqn:E; simpl.
  - intros [= <-]. auto using exists_not_file_is_dir.
  - intros H. apply mkdir_parents_is_dir in H.
    split; [now apply is_dir_exists | split; [auto | discriminate]].
Qed.

Lemma create_session_dated (today : string) (fs fs' : FS) (r : string) :
  create_session self today None fs = (Ok r, fs') ->
  r = today
  /\ exists_ (session_dir self today) fs' = true
  /\ (is_file (session_dir self today) fs = false ->
      is_dir (session_dir self today) fs' = true)
  /\ (exists_ (session_dir self today) fs = true -> fs' = fs).
Proof.
  unfold create_session. fold (session_dir self today). intros H.
  unfold bind, OS.path_exists in H.
  step_in H as [] fs1 E.
  apply ensure_dir in E. injection H as <- <-. tauto.
Qed.

Lemma init_session_path_ensures (session_id : string) (fs fs' : FS) (p : Path) :
  init_session_path self session_id fs = (Ok p, fs') ->
  p = session_dir self session_id
  /\ exists_ p fs' = true
  /\ (is_file p fs = false -> is_dir p fs' = true).
Proof.
  unfold init_session_path. fold (session_dir self session_id). intros H.
  unfold bind, OS.path_exists in H.
  step_in H as [] fs1 E.
  apply ensure_dir in E. injection H as <- <-. tauto.
Qed.

End SessionFacts.

(** C4, as amended. A successful [create_session] with no id answers the
    id derived from the date and leaves something at that id's path
    under the sessions path, a directory unless a regular file already
    had the path; with an id supplied it answers that id and leaves the
    file system as it was. *)
Theorem create_session_ensures (self : SessionManager.t) (today : string)
    (session_id : option string) (fs fs' : FS) (r : string) :
  SessionManager.create_session self today session_id fs = (Ok r, fs') ->
  match session_id with
  | None =>
      r = today
      /\ exists_ (session_dir self today) fs' = true
      /\ (is_file (session_dir self today) fs = false ->
          is_dir (session_dir self today) fs' = true)
  | Some given => r = given /\ fs' = fs
  end.
Proof.
  destruct session_id as [given|]; intros H.
  - now injection H as <- <-.
  - apply create_session_dated in H. tauto.
Qed.

(** The theorem at work on the demo disk, on 3 November 2026. *)
Lemma create_session_ensures_witness :
  Demo.today = Demo.today
  /\ exists_ (session_dir Demo.sm Demo.today) Demo.disk_dated = true
  /\ (is_file (session_dir Demo.sm Demo.today) Demo.disk = false ->
      is_dir (session_dir Demo.sm Demo.today) Demo.disk_dated = true).
Proof.
  apply (create_session_ensures Demo.sm Demo.today None Demo.disk).
  vm_compute. reflexivity.
Defined.

(** C4 as the specification words it, refuted: with the id [alice]
    supplied the call succeeds and no directory of that session exists
    afterwards. *)
Lemma create_session_explicit_id_counterexample :
  ~ (forall r fs',
       SessionManager.create_session Demo.sm Demo.today (Some "alice") Demo.disk
       = (Ok r, fs') ->
       r = "alice" /\ exists_ (session_dir Demo.sm "alice") fs' = true).
Proof.
  intros H. destruct (H "alice" Demo.disk eq_refl) as [_ E].
  vm_compute in E. discriminate E.
Qed.

(** What ensures the directory of a supplied id is [init_session_path]. *)
Lemma init_session_path_example :
  exists fs',
    SessionManager.init_session_path Demo.sm "alice" Demo.disk
    = (Ok (session_dir Demo.sm "alice"), fs')
    /\ is_dir (session_dir Demo.sm "alice") fs' = true.
Proof.
  eexists. split; [vm_compute; reflexivity |]. vm_compute. reflexivity.
Qed.

Example get_session_path_examples :
  SessionManager.get_session_path Demo.sm "alice" Demo.disk
  = (Raise SessionNotInitialized, Demo.disk)
  /\ SessionManager.get_session_path Demo.sm Demo.today Demo.disk_dated
     = (Ok (of_str "sessions/20261103"), Demo.disk_dated).
Proof. split; vm_compute; reflexivity. Qed.

(** C8. When [create_session] with no id has succeeded, a second call on
    the same day, on the file system the first one left, succeeds too,
    answers the same id, the date, and changes nothing. *)
Theorem create_session_same_day (self : SessionManager.t) (today : string)
    (fs fs1 : FS) (r : string) :
  SessionManager.create_session self today None fs = (Ok r, fs1) ->
  r = today
  /\ SessionManager.create_session self today None fs1 = (Ok r, fs1).
Proof.
  intros H. apply create_session_dated in H.
  destruct H as (-> & Hex & _). split; [reflexivity |].
  unfold SessionManager.create_session, bind, OS.path_exists.
  fold (session_dir self today). now rewrite Hex.
Qed.

(** The second call of 3 November 2026 on the demo disk. *)
Lemma create_session_same_day_witness :
  Demo.today = Demo.today
  /\ SessionManager.create_session Demo.sm Demo.today None Demo.disk_dated
     = (Ok Demo.today, Demo.disk_dated).
Proof.
  apply (create_session_same_day Demo.sm Demo.today Demo.disk).
  vm_compute. reflexivity.
Defined.

(** Making directories touches no path outside the ones it is asked
    for. *)
Lemma make_dirs_frame (ds : list Path) (fs fs' : FS) (q : Path) :
  OS.make_dirs ds fs = Some fs' -> ~ List.In q ds ->
  node_at q fs' = node_at q fs.
Proof.
  revert fs. induction ds as [|d ds IH]; intros fs Hrun Hq; simpl in *.
  - now injection Hrun as <-.
  - destruct (is_dir d fs); [apply IH; tauto |].
    destruct (exists_ d fs); [discriminate |].
    rewrite (IH _ Hrun) by tauto. apply node_at_insert_ne. tauto.
Qed.

(** Initializing one session leaves every other session as it was,
    unless its directory is on the way to the new one. *)
Lemma init_session_path_frame (self : SessionManager.t)
    (session_id other : string) (fs fs' : FS) (p : Path) :
  SessionManager.init_session_path self other fs = (Ok p, fs') ->
  session_dir self session_id <> session_dir self other ->
  ~ List.In (session_dir self session_id) (ancestors (session_dir self other)) ->
  exists_ (session_dir self session_id) fs'
  = exists_ (session_dir self session_id) fs.
Proof.
  unfold SessionManager.init_session_path. fold (session_dir self other).
  intros Hrun Hne Hanc. unfold bind, OS.path_exists in Hrun.
  step_in Hrun as u fs1 E. injection Hrun as _ <-.
  destruct (exists_ (session_dir self other) fs); simpl in E.
  - now injection E as _ <-.
  - unfold OS.mkdir_parents, OS.lift_os in E.
    destruct (exists_ (session_dir self other) fs); [discriminate |].
    destruct (OS.make_dirs _ fs) as [fs2|] eqn:E2; [| discriminate].
    injection E as _ <-. unfold exists_.
    rewrite node_at_insert_ne by auto.
    now rewrite (make_dirs_frame _ _ _ _ E2 Hanc).
Qed.

(** ** Language registry *)

Example dump_registry :
  JsonCodec.load (JsonCodec.dump Demo.registry) = Some Demo.registry.
Proof. vm_compute. reflexivity. Qed.

Example list_languages_first_run :
  @SileroTtsService.list_languages Demo.json Demo.requests Demo.disk
  = (Ok Demo.registry,
     fs_insert SileroTtsService.cache_file (File (JsonCodec.dump Demo.registry)) Demo.disk).
Proof. vm_compute. reflexivity. Qed.

Section RegistryFacts.

Import SileroTtsService.

Context `{Json} `{Requests} `{Torch}.

(** A file just written is what its path holds. *)
Lemma node_at_written (p : Path) (data : string) (fs fs' : FS) :
  OS.write1 p data fs = Some fs' ->
  fs' = fs_insert p (File data) fs /\ node_at p fs' = Some (File data).
Proof.
  unfold OS.write1.
  destruct (is_dir p fs) eqn:Ed; [discriminate |].
  destruct (is_dir (parent p) fs); [| discriminate].
  intros [= <-]. split; [reflexivity |].
  apply node_at_insert_eq. intros Hp.
  unfold is_dir, node_at in Ed. rewrite Hp in Ed.
  now rewrite bool_decide_eq_true_2 in Ed.
Qed.

Lemma write_file_ok (p : Path) (data : string) (fs fs' : FS) (u : unit) :
  OS.write_file p data fs = (Ok u, fs') -> OS.write1 p data fs = Some fs'.
Proof.
  unfold OS.write_file, OS.lift_os.
  destruct (OS.write1 p data fs); [now intros [= _ <-] | discriminate].
Qed.

(** With the cache file in place [list_languages] answers what the file
    holds, decoded, and asks nothing of the network. *)
Lemma list_languages_cached (data : string) (fs : FS) :
  node_at cache_file fs = Some (File data) ->
  list_languages fs = external (json_load data) fs.
Proof.
  intros Hc. unfold list_languages, bind, OS.path_exists, OS.read_file.
  cbv zeta. unfold exists_. rewrite Hc, bool_decide_eq_true_2 by eauto.
  simpl. rewrite Hc. reflexivity.
Qed.

(** On a first run the registry that is answered is the one written. *)
Lemma list_languages_first_writes (fs fs' : FS) (m : dict) :
  exists_ cache_file fs = false ->
  list_languages fs = (Ok m, fs') ->
  exists fs0, write_cache m fs0 = (Ok m, fs').
Proof.
  intros Hc. unfold list_languages. unfold bind at 1, OS.path_exists.
  rewrite Hc. intros Hrun.
  unfold bind at 1 in Hrun. step_in Hrun as response fs1 E1.
  unfold bind at 1 in Hrun. step_in Hrun as lang_urls fs2 E2.
  exists fs2.
  assert (Hm : lang_urls = m).
  { unfold write_cache, bind in Hrun.
    destruct (OS.write_file _ _ fs2) as [[u|e] fs3]; [| discriminate].
    now injection Hrun. }
  now subst lang_urls.
Qed.

End RegistryFacts.

(** Once a registry that json reads back as written has gone to the
    cache file, [list_languages] answers it. *)
Lemma cache_reload `{Json} `{Requests} (m : dict) (fs fs' : FS) (r : dict) :
  json_load (json_dump m) = Some m ->
  SileroTtsService.write_cache m fs = (Ok r, fs') ->
  r = m /\ SileroTtsService.list_languages fs' = (Ok m, fs').
Proof.
  intros Hjson Hrun. unfold SileroTtsService.write_cache, bind in Hrun.
  step_in Hrun as u fs1 E. injection Hrun as <- <-.
  split; [reflexivity |].
  apply write_file_ok, node_at_written in E. destruct E as [_ E].
  rewrite (list_languages_cached _ _ E), Hjson. reflexivity.
Qed.

(** C9. For every registry [m] that json reads back as it wrote it:
    once [m] has gone to the cache file as [list_languages] sends it on
    a first run, [list_languages] finds the file, loads it and answers
    [m] itself, leaving the file system as it is; and the registry a
    first run answers is the one it sent to the file. *)
Theorem cache_file_round_trip `{Json} `{Requests} (m : dict) :
  json_load (json_dump m) = Some m ->
  (forall fs fs' r,
     SileroTtsService.write_cache m fs = (Ok r, fs') ->
     r = m /\ SileroTtsService.list_languages fs' = (Ok m, fs'))
  /\ (forall fs fs',
        exists_ SileroTtsService.cache_file fs = false ->
        SileroTtsService.list_languages fs = (Ok m, fs') ->
        SileroTtsService.list_languages fs' = (Ok m, fs')).
Proof.
  intros Hjson. split.
  - intros fs fs' r. now apply cache_reload.
  - intros fs fs' Hc Hrun.
    destruct (list_languages_first_writes fs fs' m Hc Hrun) as [fs0 Hfirst].
    now apply (cache_reload m fs0 fs' m Hjson) in Hfirst.
Qed.

(** The round trip of the demo registry through the demo codec. *)
Lemma cache_file_round_trip_witness :
  (forall fs fs' r,
     @SileroTtsService.write_cache Demo.json Demo.registry fs = (Ok r, fs') ->
     r = Demo.registry
     /\ @SileroTtsService.list_languages Demo.json Demo.requests fs'
        = (Ok Demo.registry, fs'))
  /\ (forall fs fs',
        exists_ SileroTtsService.cache_file fs = false ->
        @SileroTtsService.list_languages Demo.json Demo.requests fs
        = (Ok Demo.registry, fs') ->
        @SileroTtsService.list_languages Demo.json Demo.requests fs'
        = (Ok Demo.registry, fs')).
Proof.
  apply (@cache_file_round_trip Demo.json Demo.requests Demo.registry).
  vm_compute. reflexivity.
Defined.

Lemma dict_mem_get (k : string) (d : dict) :
  Dict.mem k d = true <-> exists v, Dict.get k d = Some v.
Proof.
  unfold Dict.mem. destruct (Dict.get k d) as [v|].
  - split; eauto.
  - split; [discriminate | intros [v Hv]; discriminate].
Qed.

(** C7. For an id absent from the registry [load_model] raises the
    invalid-language exception and touches nothing. For an id the
    registry has, it never raises that exception; when the model file is
    already there it downloads nothing and loads the file; when it is
    not, it downloads the registry's URL for the id into the model
    file, and loads what it downloaded. *)
Theorem load_model_registry `{Torch} (langs : dict) (lang_model : string)
    (fs : FS) :
  (Dict.mem lang_model langs = false ->
   SileroTtsService.load_model langs lang_model fs
   = (Raise (LangNotInRegistry lang_model (Dict.values langs)), fs))
  /\ (Dict.mem lang_model langs = true ->
      (forall l known,
         fst (SileroTtsService.load_model langs lang_model fs)
         <> Raise (LangNotInRegistry l known))
      /\ (forall package model,
            node_at (of_str lang_model) fs = Some (File package) ->
            load_pickle package = Some model ->
            SileroTtsService.load_model langs lang_model fs
            = (Ok (of_str lang_model, model), fs))
      /\ (forall package model fs',
            is_file (of_str lang_model) fs = false ->
            (exists url, Dict.get lang_model langs = Some url
                         /\ download_url url = Some package) ->
            OS.write1 (of_str lang_model) package fs = Some fs' ->
            load_pickle package = Some model ->
            SileroTtsService.load_model langs lang_model fs
            = (Ok (of_str lang_model, model), fs')
            /\ node_at (of_str lang_model) fs' = Some (File package))).
Proof.
  unfold SileroTtsService.load_model. split.
  - unfold Dict.mem. destruct (Dict.get lang_model langs); [discriminate |].
    reflexivity.
  - intros Hmem. apply dict_mem_get in Hmem. destruct Hmem as [url Hurl].
    rewrite Hurl. unfold bind, OS.path_is_file, OS.read_file.
    split; [| split].
    + intros l known.
      destruct (is_file (of_str lang_model) fs); simpl.
      * destruct (node_at _ fs) as [[|package]|]; simpl; try discriminate.
        unfold external. destruct (load_pickle package); discriminate.
      * unfold external. destruct (download_url url) as [data|]; simpl;
          [| discriminate].
        unfold OS.write_file, OS.lift_os.
        destruct (OS.write1 _ data fs) as [fs1|]; [| discriminate].
        destruct (node_at _ fs1) as [[|package]|]; simpl; try discriminate.
        destruct (load_pickle package); discriminate.
    + intros package model Hfile Hload.
      unfold is_file. rewrite Hfile. simpl. rewrite Hfile.
      unfold external. now rewrite Hload.
    + intros package model fs' Hfile (url' & Hurl' & Hdown) Hwrite Hload.
      rewrite Hfile. simpl.
      assert (url' = url) by congruence. subst url'.
      rewrite Hdown. simpl. unfold OS.write_file, OS.lift_os.
      rewrite Hwrite.
      apply node_at_written in Hwrite. destruct Hwrite as [_ Hnode].
      rewrite Hnode. unfold external. rewrite Hload. now split.
Qed.

Example load_model_examples :
  @SileroTtsService.load_model Demo.torch Demo.registry "v3_fr.pt" Demo.disk
  = (Raise (LangNotInRegistry "v3_fr.pt" (Dict.values Demo.registry)), Demo.disk)
  /\ @SileroTtsService.load_model Demo.torch Demo.registry "v3_en.pt" Demo.disk
     = (Ok (of_str "v3_en.pt", Demo.tts_model),
        fs_insert (of_str "v3_en.pt")
          (File ("package from " +:+ Demo.url_of "/en/v3_en.pt")) Demo.disk).
Proof. split; vm_compute; reflexivity. Qed.

(** ** The JSON codec *)

Section JsonCodecFacts.

Import JsonCodec.

Lemma snoc_append (acc : string) (c : ascii) (s : string) :
  snoc acc c +:+ s = acc +:+ String c s.
Proof. unfold snoc. now rewrite append_assoc, append_cons, append_nil_l. Qed.

(** The reader's run through the inside of a string goes through a
    concatenation piece by piece. *)
Lemma scans_app (s1 s2 : string) (e : esc) (acc : string) :
  scans e acc (s1 +:+ s2)
  = match scans e acc s1 with
    | Some (e', acc') => scans e' acc' s2
    | None => None
    end.
Proof.
  revert e acc. induction s1 as [|c s1 IH]; intros e acc; [reflexivity |].
  rewrite append_cons. cbn [scans].
  destruct (scan e acc c) as [[[e' acc']|k]|]; [apply IH | reflexivity ..].
Qed.

(** What is written for a character reads back as that character. *)
Lemma scans_escape_char (c : ascii) (acc : string) :
  scans Plain acc (escape_char c) = Some (Plain, snoc acc c).
Proof.
  destruct c as [b0 b1 b2 b3 b4 b5 b6 b7].
  destruct b0, b1, b2, b3, b4, b5, b6, b7; reflexivity.
Qed.

Lemma scans_escape (s acc : string) :
  scans Plain acc (escape s) = Some (Plain, acc +:+ s).
Proof.
  revert acc. induction s as [|c s IH]; intros acc.
  - now rewrite append_nil_r.
  - cbn [escape]. rewrite scans_app, scans_escape_char, IH, snoc_append.
    reflexivity.
Qed.

Lemma load_key_scans (s : string) (e e' : esc) (acc acc' rest : string)
    (d : dict) :
  scans e acc s = Some (e', acc') ->
  load_go (PKey acc e) d (s +:+ rest) = load_go (PKey acc' e') d rest.
Proof.
  revert e acc. induction s as [|c s IH]; intros e acc Hs.
  - injection Hs as -> ->. reflexivity.
  - rewrite append_cons. cbn [scans] in Hs. cbn [load_go].
    destruct (scan e acc c) as [[[e1 acc1]|k]|]; try discriminate.
    now apply IH.
Qed.

Lemma load_val_scans (s : string) (e e' : esc) (k acc acc' rest : string)
    (d : dict) :
  scans e acc s = Some (e', acc') ->
  load_go (PVal k acc e) d (s +:+ rest) = load_go (PVal k acc' e') d rest.
Proof.
  revert e acc. induction s as [|c s IH]; intros e acc Hs.
  - injection Hs as -> ->. reflexivity.
  - rewrite append_cons. cbn [scans] in Hs. cbn [load_go].
    destruct (scan e acc c) as [[[e1 acc1]|v]|]; try discriminate.
    now apply IH.
Qed.

(** Reading the inside of a key up to its closing quote. *)
Lemma load_key_body (s acc rest : string) (d : dict) :
  load_go (PKey acc Plain) d (escape s +:+ String dq rest)
  = load_go (PColon (acc +:+ s)) d rest.
Proof. now rewrite (load_key_scans _ _ _ _ _ _ _ (scans_escape s acc)). Qed.

(** Reading the inside of a value up to its closing quote. *)
Lemma load_val_body (s acc rest k : string) (d : dict) :
  load_go (PVal k acc Plain) d (escape s +:+ String dq rest)
  = load_go PNext (Dict.set k (acc +:+ s) d) rest.
Proof. now rewrite (load_val_scans _ _ _ _ _ _ _ _ (scans_escape s acc)). Qed.

Lemma quoted_append (s rest : string) :
  quoted s +:+ rest = String dq (escape s +:+ String dq rest).
Proof.
  unfold quoted. now rewrite append_cons, append_assoc, append_cons, append_nil_l.
Qed.

(** The tokens between the strings. *)
Lemma load_open_key (first : bool) (d : dict) (rest : string) :
  load_go (PKey0 first) d (String dq rest)
  = load_go (PKey EmptyString Plain) d rest.
Proof. reflexivity. Qed.

Lemma load_colon (k : string) (d : dict) (rest : string) :
  load_go (PColon k) d (": " +:+ String dq rest)
  = load_go (PVal k EmptyString Plain) d rest.
Proof. reflexivity. Qed.

Lemma load_comma (d : dict) (rest : string) :
  load_go PNext d (", " +:+ rest) = load_go (PKey0 false) d rest.
Proof. reflexivity. Qed.

(** Reading one member of an object. *)
Lemma load_member (first : bool) (k v rest : string) (d : dict) :
  load_go (PKey0 first) d (quoted k +:+ ": " +:+ quoted v +:+ rest)
  = load_go PNext (Dict.set k v d) rest.
Proof.
  rewrite quoted_append, load_open_key, load_key_body, append_nil_l.
  rewrite quoted_append, load_colon, load_val_body, append_nil_l.
  reflexivity.
Qed.

Lemma dict_set_new (k v : string) (d : dict) :
  ~ List.In k (Dict.keys d) -> Dict.set k v d = d ++ [(k, v)].
Proof.
  induction d as [|[k' v'] d IH]; simpl; intros Hk; [reflexivity |].
  destruct (String.eqb_spec k' k) as [-> | Hne]; [tauto |].
  rewrite IH by tauto. reflexivity.
Qed.

(** Reading the members of an object up to its closing brace. *)
Lemma load_members (items d : dict) (first : bool) :
  items <> [] ->
  List.NoDup (Dict.keys (d ++ items)) ->
  load_go (PKey0 first) d (dump_items items +:+ "}") = Some (d ++ items).
Proof.
  revert d first. induction items as [|[k v] items IH]; intros d first Hne Hnd;
    [congruence |].
  simpl dump_items. rewrite !append_assoc, load_member.
  assert (Hk : ~ List.In k (Dict.keys d)).
  { unfold Dict.keys in *. rewrite List.map_app in Hnd. simpl in Hnd.
    apply List.NoDup_remove_2 in Hnd. rewrite List.in_app_iff in Hnd. tauto. }
  rewrite (dict_set_new _ _ _ Hk).
  destruct items as [|item items].
  - rewrite append_nil_l. reflexivity.
  - rewrite append_assoc, load_comma.
    rewrite IH; [| discriminate |].
    + now rewrite <- List.app_assoc.
    + now rewrite <- List.app_assoc.
Qed.

(** The codec reads back every dictionary it writes. The keys of a
    Python dictionary are distinct. *)
Theorem json_codec_round_trip (d : dict) :
  List.NoDup (Dict.keys d) -> load (dump d) = Some d.
Proof.
  intros Hnd. unfold load, dump.
  change (load_go (PKey0 true) [] (dump_items d +:+ "}") = Some d).
  destruct d as [|item d]; [reflexivity |].
  now rewrite load_members.
Qed.

End JsonCodecFacts.

(** With json as the codec, the cache file gives back every registry:
    whatever [list_languages] wrote on a first run, it answers on the
    next. *)
Corollary cache_reload_codec `{Requests} (m : dict) (fs fs' : FS) (r : dict) :
  List.NoDup (Dict.keys m) ->
  @SileroTtsService.write_cache JsonCodec.codec m fs = (Ok r, fs') ->
  r = m
  /\ @SileroTtsService.list_languages JsonCodec.codec _ fs' = (Ok m, fs').
Proof.
  intros Hnd. apply (@cache_reload JsonCodec.codec).
  now apply json_codec_round_trip.
Qed.

(** The service as [server.py] builds it on a first start: the registry
    comes from the network and goes to the cache file, the model is
    downloaded and loaded, and the sample and session directories are
    made. *)
Example init_first_start :
  let start := [(of_str "/srv/silero_api_server", Dir)] in
  let run :=
    @SileroTtsService.init Demo.json Demo.requests Demo.torch
      "/srv/silero_api_server//samples" "v3_en.pt" start in
  fst run = Ok Demo.service
  /\ List.map fst (snd run)
     = [of_str "sessions"; of_str "v3_en.pt"; of_str "langs.json";
        of_str "/srv/silero_api_server/samples";
        of_str "/srv/silero_api_server"].
Proof. split; vm_compute; reflexivity. Qed.

(** ** Synthesis orchestrator *)

Section GenerateFacts.

Import SileroTtsService.

Context `{Pydub}.

Variable self : SileroTtsService.t.
Variable speaker : string.

(** The model's file, once written, is there under the path answered. *)
Lemma model_save_wav_ok (text : string) (fs fs' : FS) (p : Path) :
  model_save_wav self text speaker fs = (Ok p, fs') ->
  exists out data,
    save_wav (model self) text speaker (sample_rate self) = Some (out, data)
    /\ p = of_str out
    /\ fs' = fs_insert p (File data) fs
    /\ node_at p fs' = Some (File data).
Proof.
  unfold model_save_wav, bind. intros Hrun.
  destruct (save_wav _ _ _ _) as [[out data]|]; simpl in Hrun;
    [| discriminate].
  step_in Hrun as u fs1 E. injection Hrun as <- <-.
  apply write_file_ok, node_at_written in E. destruct E as [-> E].
  exists out, data. auto.
Qed.

Lemma add_chunk_ok (combined_wav : AudioSegment) (chunk : string)
    (fs fs' : FS) (r : AudioSegment) :
  add_chunk self speaker combined_wav chunk fs = (Ok r, fs') ->
  exists segment,
    synthesized self speaker chunk segment
    /\ r = combined_wav ++ silent 500 ++ segment.
Proof.
  unfold add_chunk. unfold bind at 1. intros Hrun.
  step_in Hrun as p fs1 E.
  apply model_save_wav_ok in E.
  destruct E as (out & data & Hsave & -> & _ & Hnode).
  unfold from_file, OS.read_file, bind in Hrun. rewrite Hnode in Hrun.
  unfold external in Hrun.
  destruct (wav_decode data) as [segment|] eqn:Hdec; [| discriminate].
  injection Hrun as <- <-.
  exists segment. split; [now exists out, data |].
  now rewrite <- List.app_assoc.
Qed.

(** The loop of lines 99-102: every chunk adds the silence and then its
    segment. *)
Lemma add_chunks_ok (chunks : list string) (acc : AudioSegment)
    (fs fs' : FS) (r : AudioSegment) :
  for_fold chunks (add_chunk self speaker) acc fs = (Ok r, fs') ->
  exists segments,
    List.Forall2 (synthesized self speaker) chunks segments
    /\ r = acc ++ List.concat
                    (List.map (fun segment => silent 500 ++ segment) segments).
Proof.
  revert acc fs. induction chunks as [|chunk chunks IH]; intros acc fs Hrun.
  - injection Hrun as <- <-. exists []. split; [constructor |].
    simpl. now rewrite List.app_nil_r.
  - simpl in Hrun. unfold bind in Hrun. step_in Hrun as acc' fs1 E.
    apply add_chunk_ok in E. destruct E as (segment & Hseg & ->).
    apply IH in Hrun. destruct Hrun as (segments & Hall & ->).
    exists (segment :: segments). split; [now constructor |].
    simpl. now rewrite <- !List.app_assoc.
Qed.

Lemma get_session_path_ok (session : string) (fs fs' : FS) (p : Path) :
  SessionManager.get_session_path (session_manager self) session fs
  = (Ok p, fs') ->
  p = session_dir (session_manager self) session /\ fs' = fs
  /\ exists_ p fs = true.
Proof.
  unfold SessionManager.get_session_path, bind, OS.path_exists.
  fold (session_dir (session_manager self) session).
  destruct (exists_ _ fs) eqn:E; simpl; [| discriminate].
  now intros [= <- <-].
Qed.

End GenerateFacts.

(** C2, as amended. When [generate] succeeds on a text longer than the
    threshold, every chunk of [split_text] was synthesized, in order,
    and the one file the call wrote under the session directory, named
    from the speaker, the session and the timestamp, holds the segments
    in the order of the chunks, each one preceded by 500 ms of silence:
    the first one too, and nothing after the last. The path of that
    file is the answer. *)
Theorem generate_long `{Pydub} (self : SileroTtsService.t) (now : N)
    (speaker text session : string) (fs fs' : FS) (p : Path) :
  SileroTtsService.max_char_length self < String.length text ->
  SileroTtsService.generate self now speaker text session fs = (Ok p, fs') ->
  exists segments,
    List.Forall2 (synthesized self speaker)
      (SileroTtsService.split_text self text) segments
    /\ p = joinpath (session_dir (SileroTtsService.session_manager self) session)
             (of_str (audio_name speaker session now "_combined.wav"))
    /\ node_at p fs'
       = Some (File (wav_encode
                       (List.concat
                          (List.map (fun segment => silent 500 ++ segment)
                                    segments)))).
Proof.
  intros Hlong Hrun. unfold SileroTtsService.generate in Hrun.
  unfold bind at 1 in Hrun. step_in Hrun as session_path fs1 E.
  apply get_session_path_ok in E. destruct E as (-> & -> & _).
  apply Nat.ltb_lt in Hlong. rewrite Hlong in Hrun.
  unfold bind at 1 in Hrun. step_in Hrun as combined_wav fs2 E.
  apply add_chunks_ok in E. destruct E as (segments & Hall & ->).
  unfold bind, SileroTtsService.export in Hrun.
  step_in Hrun as u fs3 E. injection Hrun as <- <-.
  apply write_file_ok, node_at_written in E. destruct E as [_ E].
  exists segments. split; [exact Hall |]. split; [reflexivity |].
  exact E.
Qed.

(** A run on the text of 701 characters: two chunks, two segments. *)
Lemma generate_long_witness :
  exists segments,
    List.Forall2 (@synthesized Demo.pydub Demo.service "en_0")
      (SileroTtsService.split_text Demo.service Demo.long_text) segments
    /\ of_str "sessions/20261103/tts_en_0_20261103_1793700000_combined.wav"
       = joinpath (session_dir Demo.sm Demo.today)
           (of_str (audio_name "en_0" Demo.today Demo.now "_combined.wav"))
    /\ node_at
         (of_str "sessions/20261103/tts_en_0_20261103_1793700000_combined.wav")
         (snd (@SileroTtsService.generate Demo.pydub Demo.service Demo.now
                 "en_0" Demo.long_text Demo.today Demo.disk_dated))
       = Some (File (@wav_encode Demo.pydub
                       (List.concat
                          (List.map (fun segment => @silent Demo.pydub 500 ++ segment)
                                    segments)))).
Proof.
  apply (@generate_long Demo.pydub Demo.service Demo.now "en_0"
           Demo.long_text Demo.today Demo.disk_dated).
  - apply Nat.ltb_lt. vm_compute. reflexivity.
  - vm_compute. reflexivity.
Defined.

(** C2 as the specification words it, refuted on a text of two chunks:
    the file does not hold the two segments with silence between them
    only, because the silence comes before the first one as well. *)
Lemma generate_long_counterexample :
  let segment chunk := list_ascii_of_string ("RIFF en_0: " +:+ chunk) in
  SileroTtsService.split_text Demo.service Demo.long_text
  = [PyStr.times "a" 300 +:+ " "; PyStr.times "b" 400 +:+ " "]
  /\ ~ (forall p fs',
          @SileroTtsService.generate Demo.pydub Demo.service Demo.now
            "en_0" Demo.long_text Demo.today Demo.disk_dated = (Ok p, fs') ->
          node_at p fs'
          = Some (File (@wav_encode Demo.pydub
                          (@silence_between Demo.pydub
                             [segment (PyStr.times "a" 300 +:+ " ");
                              segment (PyStr.times "b" 400 +:+ " ")])))).
Proof.
  intros segment. split; [vm_compute; reflexivity |].
  intros Hclaim.
  specialize (Hclaim
    (of_str "sessions/20261103/tts_en_0_20261103_1793700000_combined.wav")
    (snd (@SileroTtsService.generate Demo.pydub Demo.service Demo.now
            "en_0" Demo.long_text Demo.today Demo.disk_dated))).
  assert (Hrun : @SileroTtsService.generate Demo.pydub Demo.service Demo.now
            "en_0" Demo.long_text Demo.today Demo.disk_dated
          = (Ok (of_str "sessions/20261103/tts_en_0_20261103_1793700000_combined.wav"),
             snd (@SileroTtsService.generate Demo.pydub Demo.service Demo.now
                    "en_0" Demo.long_text Demo.today Demo.disk_dated)))
    by (vm_compute; reflexivity).
  apply Hclaim in Hrun. vm_compute in Hrun. discriminate Hrun.
Qed.

(** What does hold of a text within the threshold: when [generate]
    succeeds, the bytes the model wrote are copied to the file of the
    session directory named from the speaker, the session and the
    timestamp (unless a directory has that name), and the answer is the
    path the model wrote to. *)
Lemma generate_short `{Pydub} (self : SileroTtsService.t) (now : N)
    (speaker text session : string) (fs fs' : FS) (p : Path) :
  String.length text <= SileroTtsService.max_char_length self ->
  SileroTtsService.generate self now speaker text session fs = (Ok p, fs') ->
  exists out data,
    save_wav (SileroTtsService.model self) text speaker
      (SileroTtsService.sample_rate self) = Some (out, data)
    /\ p = of_str out
    /\ let dst :=
         joinpath (session_dir (SileroTtsService.session_manager self) session)
           (of_str (audio_name speaker session now ".wav")) in
       is_dir dst fs = false -> node_at dst fs' = Some (File data).
Proof.
  intros Hshort Hrun. unfold SileroTtsService.generate in Hrun.
  unfold bind at 1 in Hrun. step_in Hrun as session_path fs1 E.
  apply get_session_path_ok in E. destruct E as (-> & -> & _).
  apply Nat.ltb_ge in Hshort. rewrite Hshort in Hrun.
  unfold bind at 1 in Hrun. step_in Hrun as q fs1 E.
  apply model_save_wav_ok in E.
  destruct E as (out & data & Hsave & -> & -> & Hnode).
  exists out, data. split; [exact Hsave |].
  unfold bind in Hrun. step_in Hrun as u fs2 E. injection Hrun as <- <-.
  split; [reflexivity |]. intros dst Hdst.
  fold (audio_name speaker session now ".wav") in E. fold dst in E.
  unfold OS.copy, OS.lift_os in E. rewrite Hnode in E.
  assert (Hdst1 : is_dir dst (fs_insert (of_str out) (File data) fs) = false).
  { destruct (decide (of_str out = dst)) as [<- | Hne].
    - unfold is_dir. rewrite Hnode. now apply bool_decide_eq_false_2.
    - unfold is_dir in *. now rewrite node_at_insert_ne. }
  rewrite Hdst1 in E.
  destruct (bool_decide (of_str out = dst)); [discriminate |].
  destruct (OS.write1 dst data _) as [fs3|] eqn:Ew; [| discriminate].
  injection E as E. subst fs3. apply node_at_written in Ew. apply Ew.
Qed.

(** C3 on a short text: the file is copied into the session directory,
    and the answer is [test.wav], the file of the model in the working
    directory, not the copy. *)
Lemma generate_short_returns_model_path :
  let run :=
    @SileroTtsService.generate Demo.pydub Demo.service Demo.now
      "en_0" Demo.short_text Demo.today Demo.disk_dated in
  let dst := of_str "sessions/20261103/tts_en_0_20261103_1793700000.wav" in
  fst run = Ok (of_str "test.wav")
  /\ node_at dst (snd run) = Some (File "RIFF en_0: Hello there.")
  /\ of_str "test.wav" <> dst
  /\ parent (of_str "test.wav") <> session_dir Demo.sm Demo.today.
Proof.
  intros run dst. repeat split; try (vm_compute; reflexivity);
    vm_compute; discriminate.
Qed.

(** ** Sample cache *)

Section PathFacts.

Lemma fs_lookup_is_Some (p : Path) (fs : FS) :
  is_Some (fs_lookup p fs) <-> List.In p (List.map fst fs).
Proof.
  induction fs as [|[q n] fs IH]; simpl.
  - split; [intros [x Hx]; discriminate | tauto].
  - destruct (bool_decide (q = p)) eqn:E.
    + apply bool_decide_eq_true in E. split; eauto.
    + apply bool_decide_eq_false in E. rewrite IH. tauto.
Qed.

(** The entries of a directory are the paths right under it that the
    disk holds. *)
Lemma children_spec (d p : Path) (fs : FS) :
  List.In p (children d fs)
  <-> parts p <> [] /\ parent p = d /\ is_Some (fs_lookup p fs).
Proof.
  unfold children. rewrite List.nodup_In, List.filter_In.
  rewrite bool_decide_eq_true, fs_lookup_is_Some. tauto.
Qed.

Lemma parent_anchored (d p : Path) : parent p = d -> anchored p = anchored d.
Proof. now intros <-. Qed.

Lemma joinpath_anchored (a b : Path) : anchored b = true -> joinpath a b = b.
Proof. unfold joinpath. now intros ->. Qed.

Lemma split_no_sep (sep : ascii) (s : string) :
  PyStr.contains sep s = false -> PyStr.split sep s = [s].
Proof.
  induction s as [|c s IH]; simpl; [reflexivity |].
  destruct (Ascii.eqb c sep); simpl; [discriminate |].
  intros Hs. now rewrite IH.
Qed.

Lemma contains_append (c : ascii) (s t : string) :
  PyStr.contains c (s +:+ t) = PyStr.contains c s || PyStr.contains c t.
Proof.
  induction s as [|a s IH]; [reflexivity |].
  rewrite append_cons. simpl. now rewrite IH, orb_assoc.
Qed.

Lemma append_inv_tail (a b c : string) : a +:+ c = b +:+ c -> a = b.
Proof.
  revert b. induction a as [|x a IH]; intros [|y b] Heq.
  - reflexivity.
  - rewrite append_nil_l, append_cons in Heq.
    apply (f_equal String.length) in Heq. simpl in Heq.
    rewrite length_append in Heq. lia.
  - rewrite append_nil_l, append_cons in Heq.
    apply (f_equal String.length) in Heq. simpl in Heq.
    rewrite length_append in Heq. lia.
  - rewrite !append_cons in Heq. injection Heq as -> Heq.
    now rewrite (IH b Heq).
Qed.

(** The file name of a speaker without a slash is one component. *)
Lemma of_str_wav (speaker : string) :
  PyStr.contains "/" speaker = false ->
  of_str (speaker +:+ ".wav")
  = {| anchored := false; parts := [speaker +:+ ".wav"] |}.
Proof.
  intros Hs. unfold of_str. f_equal.
  - destruct speaker as [|c s]; [reflexivity |].
    rewrite append_cons. simpl in Hs.
    change (Ascii.eqb "/" c && true = false).
    rewrite Ascii.eqb_sym.
    destruct (Ascii.eqb c "/"); [discriminate | reflexivity].
  - rewrite split_no_sep by (rewrite contains_append, Hs; reflexivity).
    simpl. unfold is_component.
    destruct speaker as [|c s]; [reflexivity |].
    rewrite append_cons. simpl.
    destruct (Ascii.eqb c "."); [| reflexivity].
    destruct s; [rewrite append_nil_l | rewrite append_cons]; reflexivity.
Qed.

End PathFacts.

Section SampleFacts.

Import SileroTtsService.

Variable self : SileroTtsService.t.

Hypothesis sample_path_anchored : anchored (sample_path self) = true.

Lemma sample_of_plain (speaker : string) :
  plain speaker ->
  sample_of self speaker
  = {| anchored := true; parts := parts (sample_path self) ++ [speaker +:+ ".wav"] |}.
Proof.
  intros Hs. unfold sample_of. rewrite (of_str_wav _ Hs).
  unfold joinpath. simpl. now rewrite sample_path_anchored.
Qed.

Lemma sample_of_under (speaker : string) :
  plain speaker ->
  parts (sample_of self speaker) <> []
  /\ parent (sample_of self speaker) = sample_path self
  /\ anchored (sample_of self speaker) = true.
Proof.
  intros Hs. rewrite (sample_of_plain _ Hs). simpl. split; [| split].
  - intros Hnil. apply List.app_eq_nil in Hnil. destruct Hnil; discriminate.
  - unfold parent. simpl. rewrite List.removelast_last.
    rewrite <- sample_path_anchored. now destruct (sample_path self).
  - reflexivity.
Qed.

Lemma sample_of_inj (s1 s2 : string) :
  plain s1 -> plain s2 -> sample_of self s1 = sample_of self s2 -> s1 = s2.
Proof.
  intros H1 H2. rewrite (sample_of_plain _ H1), (sample_of_plain _ H2).
  intros [= Heq]. apply List.app_inv_head in Heq.
  injection Heq as Heq. now apply append_inv_tail in Heq.
Qed.

(** The loop of lines 143-144: what was listed is gone, the rest is
    as it was. *)
Lemma remove_all_ok (files : list Path) (fs fs1 : FS) :
  List.Forall (fun file => anchored file = true) files ->
  for_each files (fun file => OS.remove (joinpath (sample_path self) file)) fs
  = (Ok tt, fs1) ->
  (forall p, List.In p files -> fs_lookup p fs1 = None)
  /\ (forall p, ~ List.In p files -> fs_lookup p fs1 = fs_lookup p fs).
Proof.
  intros Hfiles. revert fs.
  induction Hfiles as [|file files Hfile _ IH]; intros fs Hrun.
  - injection Hrun as <-. split; [intros p [] | reflexivity].
  - simpl in Hrun. unfold bind in Hrun. step_in Hrun as u fs0 E.
    rewrite (joinpath_anchored _ _ Hfile) in E.
    unfold OS.remove, OS.lift_os in E.
    destruct (is_file file fs); [| discriminate]. injection E as _ <-.
    destruct (IH _ Hrun) as [Hgone Hkept]. split.
    + intros p [<- | Hin]; [| now apply Hgone].
      destruct (List.in_dec Path_eq_dec file files) as [Hin | Hout];
        [now apply Hgone |].
      rewrite (Hkept _ Hout). apply fs_lookup_delete_eq.
    + intros p Hp. simpl in Hp.
      rewrite Hkept by tauto. apply fs_lookup_delete_ne. tauto.
Qed.

Lemma make_sample_ok (speaker : string) (seen : list string) (fs fs' : FS) :
  plain speaker -> List.Forall plain seen -> writes_elsewhere self speaker ->
  samples_inv self seen fs ->
  make_sample self speaker fs = (Ok tt, fs') ->
  samples_inv self (speaker :: seen) fs'.
Proof.
  intros Hs Hseen Hout [Honly Hfresh] Hrun.
  destruct (sample_of_under _ Hs) as (Hparts & Hparent & Habs).
  unfold make_sample in Hrun. fold (sample_of self speaker) in Hrun.
  unfold bind at 1, OS.path_exists in Hrun.
  destruct (exists_ (sample_of self speaker) fs) eqn:Hex.
  - injection Hrun as <-. split.
    + intros p Hp. destruct (Honly p Hp) as (s & Hin & ->).
      exists s. split; [now right | reflexivity].
    + constructor; [| exact Hfresh].
      apply exists_true in Hex. unfold node_at in Hex.
      destruct (parts (sample_of self speaker)) as [|x xs] eqn:Eparts; [congruence |].
      rewrite <- Eparts in Hparts.
      destruct (Honly (sample_of self speaker)) as (s & Hin & Heq);
        [apply children_spec; auto |].
      rewrite List.Forall_forall in Hfresh, Hseen.
      apply sample_of_inj in Heq; auto. subst s. auto.
  - unfold bind in Hrun. step_in Hrun as q fs1 E.
    apply model_save_wav_ok in E.
    destruct E as (out & data & Hsave & -> & -> & Hnode).
    rewrite (joinpath_anchored _ _ Habs) in Hrun.
    unfold OS.rename, OS.lift_os in Hrun. rewrite Hnode in Hrun.
    destruct (OS.write1 _ data _) as [fs2|] eqn:Ew; [| discriminate].
    injection Hrun as <-. apply node_at_written in Ew.
    destruct Ew as [-> _].
    assert (Hq : forall p, parent p = sample_path self -> p <> of_str out).
    { intros p Hp ->. now apply (Hout out data). }
    assert (Hkept : forall p,
               parent p = sample_path self -> p <> sample_of self speaker ->
               fs_lookup p
                 (fs_insert (sample_of self speaker) (File data)
                    (fs_delete (of_str out)
                       (fs_insert (of_str out) (File data) fs)))
               = fs_lookup p fs).
    { intros p Hp Hne.
      rewrite fs_lookup_insert_ne by congruence.
      rewrite fs_lookup_delete_ne by (apply not_eq_sym; auto).
      apply fs_lookup_insert_ne, not_eq_sym; auto. }
    split.
    + intros p Hp. apply children_spec in Hp.
      destruct Hp as (Hpp & Hpar & Hsome).
      destruct (decide (p = sample_of self speaker)) as [-> | Hne].
      * exists speaker. split; [now left | reflexivity].
      * rewrite Hkept in Hsome by assumption.
        destruct (Honly p) as (s & Hin & ->); [apply children_spec; auto |].
        exists s. split; [now right | reflexivity].
    + constructor.
      * exists out, data. split; [exact Hsave |]. apply fs_lookup_insert_eq.
      * rewrite List.Forall_forall in *. intros s Hin.
        destruct (Hfresh s Hin) as (out' & data' & Hsave' & Hlook).
        destruct (decide (sample_of self s = sample_of self speaker)) as [Heq | Hne].
        -- apply sample_of_inj in Heq; auto. subst s.
           exists out, data. split; [exact Hsave |]. apply fs_lookup_insert_eq.
        -- exists out', data'. split; [exact Hsave' |].
           rewrite Hkept; auto.
           now destruct (sample_of_under s (Hseen s Hin)) as (_ & ? & _).
Qed.

Lemma make_samples_ok (todo seen : list string) (fs fs' : FS) :
  List.Forall plain todo -> List.Forall plain seen ->
  List.Forall (writes_elsewhere self) todo ->
  samples_inv self seen fs ->
  for_each todo (make_sample self) fs = (Ok tt, fs') ->
  samples_inv self (List.rev todo ++ seen) fs'.
Proof.
  revert seen fs. induction todo as [|speaker todo IH];
    intros seen fs Htodo Hseen Hout Hinv Hrun.
  - now injection Hrun as <-.
  - simpl in Hrun. unfold bind in Hrun. step_in Hrun as u fs1 E. destruct u.
    apply List.Forall_cons_iff in Htodo, Hout.
    destruct Htodo as [Hs Htodo]. destruct Hout as [Ho Hout].
    apply (make_sample_ok _ _ _ _ Hs Hseen Ho Hinv) in E.
    apply (IH (speaker :: seen)) in Hrun; auto.
    simpl. now rewrite <- List.app_assoc.
Qed.

End SampleFacts.

Section SampleRun.

Import SileroTtsService.

Variable self : SileroTtsService.t.

Hypothesis sample_path_anchored : anchored (sample_path self) = true.








End SampleRun.

(** When [generate_samples] succeeds, the entries of the sample
    directory are precisely the files [{speaker}.wav] of the model's
    speakers, each of them fresh. *)
Lemma generate_samples_post (self : SileroTtsService.t) (fs fs' : FS) :
  anchored (SileroTtsService.sample_path self) = true ->
  List.Forall plain (speakers (SileroTtsService.model self)) ->
  List.Forall (writes_elsewhere self) (speakers (SileroTtsService.model self)) ->
  SileroTtsService.generate_samples self fs = (Ok tt, fs') ->
  (forall p,
     List.In p (children (SileroTtsService.sample_path self) fs')
     <-> exists speaker,
           List.In speaker (speakers (SileroTtsService.model self))
           /\ p = sample_of self speaker)
  /\ List.Forall (fresh_sample self fs') (speakers (SileroTtsService.model self)).
Proof.
  intros Habs Hplain Hout Hrun.
  unfold SileroTtsService.generate_samples in Hrun.
  unfold bind at 1, OS.iterdir in Hrun.
  destruct (is_dir _ fs); [| discriminate].
  unfold bind in Hrun. step_in Hrun as u fs1 E. destruct u.
  apply remove_all_ok in E.
  2: { apply List.Forall_forall. intros p Hp. apply children_spec in Hp.
       destruct Hp as (_ & Hp & _). apply parent_anchored in Hp. congruence. }
  destruct E as [Hgone Hkept].
  assert (Hinv : samples_inv self [] fs1).
  { split; [| constructor]. intros p Hp. exfalso.
    pose proof Hp as Hp'. apply children_spec in Hp'.
    destruct Hp' as (Hparts & Hparent & Hsome).
    destruct (List.in_dec Path_eq_dec p
                (children (SileroTtsService.sample_path self) fs))
      as [Hin | Hnot].
    - rewrite (Hgone _ Hin) in Hsome. now destruct Hsome.
    - apply Hnot. apply children_spec. rewrite <- (Hkept _ Hnot). auto. }
  apply (make_samples_ok self Habs _ [] fs1 fs' Hplain) in Hrun;
    [| constructor | assumption | assumption].
  rewrite List.app_nil_r in Hrun. destruct Hrun as [Honly Hfresh].
  assert (Hall : List.Forall (fresh_sample self fs')
                   (speakers (SileroTtsService.model self))).
  { rewrite List.Forall_forall in *. intros s Hs.
    apply Hfresh. now apply List.in_rev in Hs. }
  split; [| exact Hall].
  intros p. split.
  - intros Hp. destruct (Honly p Hp) as (s & Hs & ->).
    exists s. split; [now apply List.in_rev | reflexivity].
  - intros (s & Hs & ->). rewrite List.Forall_forall in Hall, Hplain.
    destruct (Hall s Hs) as (out & data & _ & Hlook).
    destruct (sample_of_under self Habs s (Hplain s Hs)) as (Hparts & Hparent & _).
    apply children_spec. rewrite Hlook. eauto.
Qed.




Example generate_samples_example :
  SileroTtsService.generate_samples Demo.service Demo.disk_samples
  = (Ok tt,
     [(of_str "/srv/silero_api_server/samples/en_1.wav",
       File ("RIFF en_1: " +:+ SileroTtsService.sample_text Demo.service));
      (of_str "/srv/silero_api_server/samples/en_0.wav",
       File ("RIFF en_0: " +:+ SileroTtsService.sample_text Demo.service));
      (of_str "/srv/silero_api_server/samples", Dir)]).
Proof. vm_compute. reflexivity. Qed.

(** On a relative sample path the listed entry [samples/en_0.wav] is
    joined to [samples] once more at line 144, and the removal of
    [samples/samples/en_0.wav] raises. *)
Example generate_samples_relative_path :
  SileroTtsService.generate_samples Demo.service_relative Demo.disk_relative
  = (Raise OSError, Demo.disk_relative).
Proof. vm_compute. reflexivity. Qed.

(** * Further properties *)

(** ** Session manager *)

Section SessionMore.

Import SessionManager.

Variable self : SessionManager.t.

(** On an existing path the guarded creation does nothing. *)
Lemma init_session_path_present (session_id : string) (fs : FS) :
  exists_ (session_dir self session_id) fs = true ->
  init_session_path self session_id fs = (Ok (session_dir self session_id), fs).
Proof.
  intros Hex. unfold init_session_path, bind, OS.path_exists.
  fold (session_dir self session_id). now rewrite Hex.
Qed.

Lemma get_session_path_present (session_id : string) (fs : FS) :
  exists_ (session_dir self session_id) fs = true ->
  get_session_path self session_id fs = (Ok (session_dir self session_id), fs).
Proof.
  intros Hex. unfold get_session_path, bind, OS.path_exists.
  fold (session_dir self session_id). now rewrite Hex.
Qed.

Lemma get_session_path_absent (session_id : string) (fs : FS) :
  exists_ (session_dir self session_id) fs = false ->
  get_session_path self session_id fs = (Raise SessionNotInitialized, fs).
Proof.
  intros Hex. unfold get_session_path, bind, OS.path_exists.
  fold (session_dir self session_id). now rewrite Hex.
Qed.



End SessionMore.

(** Over a directory that is there, the manager is built and nothing
    changes. *)
Lemma session_manager_init_present (base_sessions_path : string) (fs : FS) :
  is_dir (of_str base_sessions_path) fs = true ->
  SessionManager.init base_sessions_path fs
  = (Ok {| SessionManager.sessions_path := of_str base_sessions_path |}, fs).
Proof.
  intros Hd. unfold SessionManager.init, bind, OS.mkdir_exist_ok, OS.lift_os.
  now rewrite Hd.
Qed.

(** X1. [init_session_path] is idempotent. When it succeeds it answers
    the path of the id under the sessions path, something exists there
    afterwards, and a second call for the same id succeeds with the same
    answer and changes nothing. *)
Theorem init_session_path_idempotent (self : SessionManager.t)
    (session_id : string) (fs fs' : FS) (p : Path) :
  SessionManager.init_session_path self session_id fs = (Ok p, fs') ->
  p = session_dir self session_id
  /\ exists_ p fs' = true
  /\ SessionManager.init_session_path self session_id fs' = (Ok p, fs').
Proof.
  intros Hrun. apply init_session_path_ensures in Hrun.
  destruct Hrun as (-> & Hex & _).
  split; [reflexivity |]. split; [exact Hex |].
  now apply init_session_path_present.
Qed.

(** A first and a second initialization of [alice] on the demo disk. *)
Lemma init_session_path_idempotent_witness :
  of_str "sessions/alice" = session_dir Demo.sm "alice"
  /\ exists_ (of_str "sessions/alice") Cases.disk_alice = true
  /\ SessionManager.init_session_path Demo.sm "alice" Cases.disk_alice
     = (Ok (of_str "sessions/alice"), Cases.disk_alice).
Proof.
  apply (init_session_path_idempotent Demo.sm "alice" Demo.disk).
  vm_compute. reflexivity.
Defined.

(** X2. A session that [init_session_path] has initialized is known to
    [get_session_path]: it answers the same path and changes nothing. *)
Theorem init_then_get_session_path (self : SessionManager.t)
    (session_id : string) (fs fs' : FS) (p : Path) :
  SessionManager.init_session_path self session_id fs = (Ok p, fs') ->
  SessionManager.get_session_path self session_id fs' = (Ok p, fs').
Proof.
  intros Hrun. apply init_session_path_ensures in Hrun.
  destruct Hrun as (-> & Hex & _).
  now apply get_session_path_present.
Qed.

(** [alice], once initialized on the demo disk, is found. *)
Lemma init_then_get_session_path_witness :
  SessionManager.get_session_path Demo.sm "alice" Cases.disk_alice
  = (Ok (of_str "sessions/alice"), Cases.disk_alice).
Proof.
  apply (init_then_get_session_path Demo.sm "alice" Demo.disk).
  vm_compute. reflexivity.
Defined.

(** X3. The id that [create_session] derives from the date is known to
    [get_session_path] right away: the session it answers has its path
    under the sessions path. *)
Theorem create_then_get_session_path (self : SessionManager.t)
    (today : string) (fs fs' : FS) (r : string) :
  SessionManager.create_session self today None fs = (Ok r, fs') ->
  SessionManager.get_session_path self r fs'
  = (Ok (session_dir self today), fs').
Proof.
  intros Hrun. apply create_session_dated in Hrun.
  destruct Hrun as (-> & Hex & _).
  now apply get_session_path_present.
Qed.

(** The session of 3 November 2026 on the demo disk. *)
Lemma create_then_get_session_path_witness :
  SessionManager.get_session_path Demo.sm Demo.today Demo.disk_dated
  = (Ok (session_dir Demo.sm Demo.today), Demo.disk_dated).
Proof.
  apply (create_then_get_session_path Demo.sm Demo.today Demo.disk).
  vm_compute. reflexivity.
Defined.



(** X5. Building the session manager makes the sessions directory when
    it is missing and accepts it when it is there: after a successful
    [SessionManager(base)] the sessions path is [Path(base)], it is a
    directory, and building a manager on the same base again succeeds
    and changes nothing. *)
Theorem session_manager_init_idempotent (base_sessions_path : string)
    (fs fs' : FS) (sm : SessionManager.t) :
  SessionManager.init base_sessions_path fs = (Ok sm, fs') ->
  SessionManager.sessions_path sm = of_str base_sessions_path
  /\ is_dir (of_str base_sessions_path) fs' = true
  /\ SessionManager.init base_sessions_path fs' = (Ok sm, fs').
Proof.
  intros Hrun.
  unfold SessionManager.init, bind, OS.mkdir_exist_ok, OS.lift_os in Hrun.
  destruct (is_dir (of_str base_sessions_path) fs) eqn:Ed.
  - injection Hrun as <- <-. split; [reflexivity |]. split; [exact Ed |].
    now apply session_manager_init_present.
  - unfold OS.mkdir1 in Hrun.
    destruct (exists_ (of_str base_sessions_path) fs); [discriminate |].
    destruct (is_dir (parent (of_str base_sessions_path)) fs); [| discriminate].
    injection Hrun as <- <-. split; [reflexivity |].
    assert (Hnew : is_dir (of_str base_sessions_path)
                     (fs_insert (of_str base_sessions_path) Dir fs) = true)
      by apply is_dir_true, node_at_insert_dir.
    split; [exact Hnew |]. now apply session_manager_init_present.
Qed.

(** The manager of [sessions] on an empty disk. *)
Lemma session_manager_init_idempotent_witness :
  SessionManager.sessions_path Demo.sm = of_str "sessions"
  /\ is_dir (of_str "sessions") Demo.disk = true
  /\ SessionManager.init "sessions" Demo.disk = (Ok Demo.sm, Demo.disk).
Proof.
  apply (session_manager_init_idempotent "sessions" Cases.disk_empty).
  vm_compute. reflexivity.
Defined.

(** ** Effects *)

Section EffectFacts.

Lemma exists_insert (p q : Path) (n : node) (fs : FS) :
  exists_ q fs = true -> exists_ q (fs_insert p n fs) = true.
Proof.
  rewrite !exists_true. unfold node_at.
  destruct (parts q) eqn:Eq; [auto |].
  destruct (decide (p = q)) as [-> | Hne].
  - rewrite fs_lookup_insert_eq. eauto.
  - now rewrite fs_lookup_insert_ne.
Qed.

Lemma keeps_ret {A} (a : A) : keeps (ret a).
Proof. intros fs r fs' q [= _ <-]. auto. Qed.

Lemma keeps_raise {A} (e : exn) : keeps (@raise A e).
Proof. intros fs r fs' q [= _ <-]. auto. Qed.

Lemma keeps_external {A} (o : option A) : keeps (external o).
Proof. destruct o; [apply keeps_ret | apply keeps_raise]. Qed.

Lemma keeps_bind {A C} (m : M A) (k : A -> M C) :
  keeps m -> (forall a, keeps (k a)) -> keeps (bind m k).
Proof.
  intros Hm Hk fs r fs' q Hrun Hq. unfold bind in Hrun.
  destruct (m fs) as [[a|e] fs1] eqn:E.
  - apply (Hk a fs1 r fs' q Hrun). now apply (Hm fs _ fs1 q E).
  - injection Hrun as _ <-. now apply (Hm fs _ fs1 q E).
Qed.

Lemma keeps_readonly {A} (m : M A) : readonly m -> keeps m.
Proof. intros Hm fs r fs' q Hrun Hq. now rewrite (Hm _ _ _ Hrun). Qed.

Lemma keeps_lift_os (f : FS -> option FS) :
  (forall fs fs' q, f fs = Some fs' -> exists_ q fs = true -> exists_ q fs' = true) ->
  keeps (OS.lift_os f).
Proof.
  intros Hf fs r fs' q Hrun Hq. unfold OS.lift_os in Hrun.
  destruct (f fs) as [fs1|] eqn:E; injection Hrun as _ <-; eauto.
Qed.

Lemma keeps_write_file (p : Path) (data : string) : keeps (OS.write_file p data).
Proof.
  apply keeps_lift_os. unfold OS.write1. intros fs fs' q Hrun Hq.
  destruct (is_dir p fs); [discriminate |].
  destruct (is_dir (parent p) fs); [| discriminate].
  injection Hrun as <-. now apply exists_insert.
Qed.

Lemma keeps_copy (src dst : Path) : keeps (OS.copy src dst).
Proof.
  apply keeps_lift_os. intros fs fs' q Hrun Hq.
  destruct (node_at src fs) as [[|data]|]; try discriminate.
  cbv zeta in Hrun.
  set (dst' := if is_dir dst fs then _ else _) in Hrun.
  destruct (bool_decide (src = dst')); [discriminate |].
  unfold OS.write1 in Hrun.
  destruct (is_dir dst' fs); [discriminate |].
  destruct (is_dir (parent dst') fs); [| discriminate].
  injection Hrun as <-. now apply exists_insert.
Qed.

Lemma keeps_make_dirs (ds : list Path) (fs fs' : FS) (q : Path) :
  OS.make_dirs ds fs = Some fs' -> exists_ q fs = true -> exists_ q fs' = true.
Proof.
  revert fs. induction ds as [|d ds IH]; intros fs Hrun Hq; simpl in Hrun.
  - now injection Hrun as <-.
  - destruct (is_dir d fs); [eauto |].
    destruct (exists_ d fs); [discriminate |].
    apply (IH _ Hrun). now apply exists_insert.
Qed.

Lemma keeps_mkdir_parents (p : Path) : keeps (OS.mkdir_parents p).
Proof.
  apply keeps_lift_os. intros fs fs' q Hrun Hq.
  destruct (exists_ p fs); [discriminate |].
  destruct (OS.make_dirs _ fs) as [fs1|] eqn:E; [| discriminate].
  injection Hrun as <-. apply exists_insert. now apply (keeps_make_dirs _ _ _ _ E).
Qed.

Lemma keeps_mkdir1 (p : Path) (fs fs' : FS) (q : Path) :
  OS.mkdir1 p fs = Some fs' -> exists_ q fs = true -> exists_ q fs' = true.
Proof.
  unfold OS.mkdir1. intros Hrun Hq.
  destruct (exists_ p fs); [discriminate |].
  destruct (is_dir (parent p) fs); [| discriminate].
  injection Hrun as <-. now apply exists_insert.
Qed.

Lemma keeps_mkdir (p : Path) : keeps (OS.mkdir p).
Proof. apply keeps_lift_os. apply keeps_mkdir1. Qed.

Lemma keeps_mkdir_exist_ok (p : Path) : keeps (OS.mkdir_exist_ok p).
Proof.
  apply keeps_lift_os. intros fs fs' q Hrun Hq.
  destruct (is_dir p fs); [now injection Hrun as <- |].
  now apply (keeps_mkdir1 p fs).
Qed.

Lemma readonly_ret {A} (a : A) : readonly (ret a).
Proof. now intros fs r fs' [= _ <-]. Qed.

Lemma readonly_raise {A} (e : exn) : readonly (@raise A e).
Proof. now intros fs r fs' [= _ <-]. Qed.

Lemma readonly_external {A} (o : option A) : readonly (external o).
Proof. destruct o; [apply readonly_ret | apply readonly_raise]. Qed.

Lemma readonly_path_exists (p : Path) : readonly (OS.path_exists p).
Proof. now intros fs r fs' [= _ <-]. Qed.

Lemma readonly_path_is_file (p : Path) : readonly (OS.path_is_file p).
Proof. now intros fs r fs' [= _ <-]. Qed.

Lemma readonly_read_file (p : Path) : readonly (OS.read_file p).
Proof.
  intros fs r fs'. unfold OS.read_file.
  destruct (node_at p fs) as [[|data]|]; now intros [= _ <-].
Qed.

Lemma readonly_bind {A C} (m : M A) (k : A -> M C) :
  readonly m -> (forall a, readonly (k a)) -> readonly (bind m k).
Proof.
  intros Hm Hk fs r fs' Hrun. unfold bind in Hrun.
  destruct (m fs) as [[a|e] fs1] eqn:E.
  - rewrite (Hk a _ _ _ Hrun). now apply (Hm _ _ _ E).
  - injection Hrun as _ <-. now apply (Hm _ _ _ E).
Qed.

Lemma readonly_for_fold {A S} (l : list A) (body : S -> A -> M S) (acc : S) :
  (forall s a, readonly (body s a)) -> readonly (for_fold l body acc).
Proof.
  intros Hbody. revert acc. induction l as [|x l IH]; intros acc; simpl.
  - apply readonly_ret.
  - apply readonly_bind; auto.
Qed.

Lemma keeps_for_fold {A S} (l : list A) (body : S -> A -> M S) (acc : S) :
  (forall s a, keeps (body s a)) -> keeps (for_fold l body acc).
Proof.
  intros Hbody. revert acc. induction l as [|x l IH]; intros acc; simpl.
  - apply keeps_ret.
  - apply keeps_bind; auto.
Qed.

Lemma atomic_readonly {A} (m : M A) : readonly m -> atomic m.
Proof. intros Hm fs e fs' Hrun. now apply (Hm _ _ _ Hrun). Qed.

Lemma atomic_lift_os (f : FS -> option FS) : atomic (OS.lift_os f).
Proof.
  intros fs e fs'. unfold OS.lift_os.
  destruct (f fs); [discriminate | now intros [= _ <-]].
Qed.

(** After a computation that only reads, an atomic one stays atomic. *)
Lemma atomic_bind_readonly {A C} (m : M A) (k : A -> M C) :
  readonly m -> (forall a, atomic (k a)) -> atomic (bind m k).
Proof.
  intros Hm Hk fs e fs' Hrun. unfold bind in Hrun.
  destruct (m fs) as [[a|e0] fs1] eqn:E.
  - rewrite (Hk a _ _ _ Hrun). now apply (Hm _ _ _ E).
  - injection Hrun as _ <-. now apply (Hm _ _ _ E).
Qed.

Lemma raises_only_ret {A} (E : exn -> Prop) (a : A) : raises_only E (ret a).
Proof. intros fs e fs' Hrun. discriminate Hrun. Qed.

Lemma raises_only_raise {A} (E : exn -> Prop) (e : exn) :
  E e -> raises_only E (@raise A e).
Proof. now intros He fs e' fs' [= <- _]. Qed.

Lemma raises_only_external {A} (o : option A) :
  raises_only from_below (external o).
Proof.
  destruct o; [apply raises_only_ret |].
  apply raises_only_raise. now right.
Qed.

Lemma raises_only_lift_os (f : FS -> option FS) :
  raises_only from_below (OS.lift_os f).
Proof.
  intros fs e fs'. unfold OS.lift_os.
  destruct (f fs); [discriminate |]. intros [= <- _]. now left.
Qed.

Lemma raises_only_read_file (p : Path) :
  raises_only from_below (OS.read_file p).
Proof.
  intros fs e fs'. unfold OS.read_file.
  destruct (node_at p fs) as [[|data]|]; try discriminate;
    intros [= <- _]; now left.
Qed.

Lemma raises_only_bind {A C} (E : exn -> Prop) (m : M A) (k : A -> M C) :
  raises_only E m -> (forall a, raises_only E (k a)) ->
  raises_only E (bind m k).
Proof.
  intros Hm Hk fs e fs' Hrun. unfold bind in Hrun.
  destruct (m fs) as [[a|e0] fs1] eqn:E0.
  - now apply (Hk a fs1 e fs').
  - injection Hrun as <- _. now apply (Hm fs e0 fs1).
Qed.

Lemma raises_only_for_fold {A S} (E : exn -> Prop) (l : list A)
    (body : S -> A -> M S) (acc : S) :
  (forall s a, raises_only E (body s a)) -> raises_only E (for_fold l body acc).
Proof.
  intros Hbody. revert acc. induction l as [|x l IH]; intros acc; simpl.
  - apply raises_only_ret.
  - apply raises_only_bind; auto.
Qed.

End EffectFacts.

(** ** Text chunker *)

Section ChunkerMore.

Import Chunker.

Variable B : nat.

Local Abbreviation norm := (PyStr.replace PyStr.newline PyStr.space).
Local Abbreviation step := (split_step B).

Lemma ends_in_space_append (a : string) :
  ends_in_space (a +:+ String PyStr.space EmptyString).
Proof.
  unfold ends_in_space. induction a as [|x a IH]; [reflexivity |].
  rewrite append_cons. simpl.
  destruct (a +:+ String PyStr.space EmptyString) eqn:E; [| exact IH].
  destruct a; discriminate E.
Qed.

Lemma ends_in_space_padded (c word : string) :
  ends_in_space (c +:+ padded word).
Proof.
  unfold padded. rewrite <- append_assoc. apply ends_in_space_append.
Qed.

Lemma ends_in_space_nonempty (c : string) :
  ends_in_space c -> c <> EmptyString.
Proof. intros H ->. discriminate H. Qed.

Lemma length_padded (word : string) :
  String.length (padded word) = S (String.length word).
Proof.
  unfold padded. rewrite length_append, length_replace. simpl. lia.
Qed.

Lemma join_cons (x : string) (l : list string) :
  PyStr.join (x :: l) = x +:+ PyStr.join l.
Proof. reflexivity. Qed.

(** One turn of the loop, lines 120-124. *)
Lemma step_eq (cl : list string) (cs word : string) :
  step (cl, cs) word
  = if (B <? String.length (cs +:+ padded word))%nat
    then (cl ++ [cs], EmptyString +:+ padded word)
    else (cl, cs +:+ padded word).
Proof. unfold split_step. now destruct (B <? _)%nat. Qed.

(** From a pending chunk that ends in a space the loop only adds
    chunks that end in a space, and leaves such a pending chunk. *)
Lemma loop_from_pending (ws : list string) (cl : list string) (cs : string) :
  ends_in_space cs ->
  exists more last,
    fold_left step ws (cl, cs) = (cl ++ more, last)
    /\ List.Forall ends_in_space more /\ ends_in_space last.
Proof.
  revert cl cs. induction ws as [|w ws IH]; intros cl cs Hcs.
  - exists [], cs. simpl. rewrite List.app_nil_r. auto.
  - cbn [fold_left]. rewrite step_eq.
    destruct (B <? _)%nat.
    + destruct (IH (cl ++ [cs]) (EmptyString +:+ padded w))
        as (more & last & Hrun & Hmore & Hlast);
        [apply ends_in_space_padded |].
      exists (cs :: more), last. rewrite Hrun, <- List.app_assoc. auto.
    + destruct (IH cl (cs +:+ padded w))
        as (more & last & Hrun & Hmore & Hlast);
        [apply ends_in_space_padded |].
      exists more, last. auto.
Qed.

(** The chunks of a text: an empty first chunk when the first piece
    does not fit, then chunks that end in a space. *)
Lemma split_text_structure (T : string) :
  exists first rest more last,
    PyStr.split PyStr.space T = first :: rest
    /\ List.Forall ends_in_space more /\ ends_in_space last
    /\ split_text B T
       = (if (B <? String.length (padded first))%nat then [EmptyString] else [])
         ++ more ++ [last].
Proof.
  unfold split_text.
  destruct (PyStr.split PyStr.space T) as [|first rest] eqn:Hsplit;
    [now apply split_not_nil in Hsplit |].
  cbn [fold_left]. rewrite step_eq, !append_nil_l.
  destruct (loop_from_pending rest
              (if (B <? String.length (padded first))%nat
               then [EmptyString] else [])
              (padded first))
    as (more & last & Hrun & Hmore & Hlast).
  { rewrite <- (append_nil_l (padded first)). apply ends_in_space_padded. }
  exists first, rest, more, last.
  split; [reflexivity |]. split; [exact Hmore |]. split; [exact Hlast |].
  destruct (B <? String.length (padded first))%nat;
    simpl in *; rewrite Hrun;
    (destruct last as [|c last]; [discriminate Hlast |]);
    simpl; now rewrite <- ?List.app_assoc.
Qed.

(** While everything fits, the loop keeps filling the pending chunk. *)
Lemma loop_fills (ws : list string) (cl : list string) (cs : string) :
  String.length cs + String.length (PyStr.join (List.map padded ws)) <= B ->
  fold_left step ws (cl, cs) = (cl, cs +:+ PyStr.join (List.map padded ws)).
Proof.
  revert cs. induction ws as [|w ws IH]; intros cs Hfit;
    cbn [fold_left List.map] in *.
  - change (PyStr.join []) with EmptyString. now rewrite append_nil_r.
  - rewrite join_cons in *. rewrite length_append in Hfit. rewrite step_eq.
    destruct (B <? _)%nat eqn:E.
    + apply Nat.ltb_lt in E. rewrite length_append in E. lia.
    + rewrite IH by (rewrite length_append; lia). now rewrite append_assoc.
Qed.

Lemma length_join_le (l : list string) :
  List.Forall (fun c => String.length c <= B) l ->
  String.length (PyStr.join l) <= B * List.length l.
Proof.
  induction 1 as [|c l Hc _ IH]; [simpl; lia |].
  rewrite join_cons, length_append. simpl List.length. lia.
Qed.

Local Abbreviation apart := (Spec2.apart B).

Lemma consecutive_snoc (l : list string) (x y : string) :
  consecutive apart (l ++ [x]) -> apart x y ->
  consecutive apart ((l ++ [x]) ++ [y]).
Proof.
  induction l as [|a l IH]; simpl; [tauto |].
  destruct l as [|b l]; simpl in *; [tauto |].
  intros [Hab Hrest] Hxy. split; [exact Hab |]. now apply IH.
Qed.

Lemma consecutive_grow (l : list string) (x x' : string) :
  consecutive apart (l ++ [x]) -> String.length x <= String.length x' ->
  consecutive apart (l ++ [x']).
Proof.
  induction l as [|a l IH]; simpl; [tauto |].
  destruct l as [|b l]; simpl in *.
  - unfold apart. intros [H _] Hle. split; [lia | exact I].
  - intros [Hab Hrest] Hle. split; [exact Hab |]. now apply IH.
Qed.

Lemma loop_apart (ws : list string) (cl : list string) (cs : string) :
  consecutive apart (cl ++ [cs]) ->
  consecutive apart
    (fst (fold_left step ws (cl, cs)) ++ [snd (fold_left step ws (cl, cs))]).
Proof.
  revert cl cs. induction ws as [|w ws IH]; intros cl cs Hinv; [exact Hinv |].
  cbn [fold_left]. rewrite step_eq.
  destruct (B <? _)%nat eqn:E.
  - apply IH. rewrite append_nil_l. apply consecutive_snoc; [exact Hinv |].
    apply Nat.ltb_lt in E. rewrite length_append in E. exact E.
  - apply IH. apply (consecutive_grow _ cs); [exact Hinv |].
    rewrite length_append. lia.
Qed.

End ChunkerMore.

(** X6. [split_text] never answers the empty list, and only its first
    chunk can be empty: every later chunk ends in a space, and the
    first one is empty exactly when the first space-delimited piece of
    the text, with its trailing space, exceeds the budget. *)
Theorem split_text_only_first_empty (B : nat) (T : string) :
  Chunker.split_text B T <> []
  /\ List.Forall ends_in_space (List.tl (Chunker.split_text B T))
  /\ (List.hd EmptyString (Chunker.split_text B T) = EmptyString
      <-> B < S (String.length (List.hd EmptyString (PyStr.split PyStr.space T)))).
Proof.
  destruct (split_text_structure B T)
    as (first & rest & more & last & Hsplit & Hmore & Hlast & ->).
  rewrite Hsplit. simpl List.hd at 2. rewrite <- length_padded.
  assert (Hall : List.Forall ends_in_space (more ++ [last])).
  { apply List.Forall_app. split; [exact Hmore | now constructor]. }
  destruct (B <? String.length (Chunker.padded first))%nat eqn:E.
  - apply Nat.ltb_lt in E. simpl. split; [discriminate |].
    split; [exact Hall |]. tauto.
  - apply Nat.ltb_ge in E. simpl. split; [now destruct more |].
    split.
    + destruct (more ++ [last]); [constructor | now inversion Hall].
    + split; [| lia]. intros Hhd. exfalso.
      destruct (more ++ [last]) as [|c l] eqn:El; [now destruct more |].
      simpl in Hhd. subst c. apply List.Forall_inv in Hall.
      discriminate Hall.
Qed.

(** X7. When no space-delimited piece of the text reaches the budget,
    every chunk of [split_text] is within the budget and ends in a
    space; none is empty. *)
Theorem split_text_within_budget (B : nat) (T : string) :
  no_long_word B T ->
  List.Forall
    (fun c => ends_in_space c /\ String.length c <= B)
    (Chunker.split_text B T).
Proof.
  intros Hshort. pose proof (fits_split_text B T) as Hfits.
  destruct (split_text_structure B T)
    as (first & rest & more & last & Hsplit & Hmore & Hlast & Heq).
  unfold no_long_word in Hshort. rewrite List.Forall_forall in Hshort.
  assert (Hfirst : (B <? String.length (Chunker.padded first))%nat = false).
  { apply Nat.ltb_ge. rewrite length_padded.
    apply Hshort. rewrite Hsplit. now left. }
  rewrite Hfirst in Heq. simpl in Heq. rewrite Heq in *.
  assert (Hall : List.Forall ends_in_space (more ++ [last])).
  { apply List.Forall_app. split; [exact Hmore | now constructor]. }
  rewrite List.Forall_forall in *. intros c Hc. split; [now apply Hall |].
  destruct (Hfits c Hc) as [Hle | (w & Hw & -> & Hlong)]; [exact Hle |].
  rewrite length_padded in *. apply Hshort in Hw. lia.
Qed.

(** The text of four words under a budget of eight characters. *)
Lemma split_text_within_budget_witness :
  List.Forall
    (fun c => ends_in_space c /\ String.length c <= 8)
    (Chunker.split_text 8 "ab cd efg h").
Proof.
  apply (split_text_within_budget 8 "ab cd efg h").
  unfold no_long_word. simpl. repeat constructor.
Defined.

(** X8. A text at least as long as the budget, none of whose pieces
    reaches the budget, is cut into at least two chunks; with [n]
    chunks, [n] times the budget covers the text and its trailing
    space. This is the text [generate] sends to [split_text]. *)
Theorem split_text_at_least_two (B : nat) (T : string) :
  no_long_word B T ->
  B <= String.length T ->
  2 <= List.length (Chunker.split_text B T)
  /\ String.length T + 1 <= B * List.length (Chunker.split_text B T).
Proof.
  intros Hshort Hlong.
  assert (Hle : List.Forall (fun c => String.length c <= B)
                  (Chunker.split_text B T)).
  { eapply List.Forall_impl; [| apply (fits_split_text B T)].
    intros c [Hc | (w & Hw & -> & Hc)]; [exact Hc |].
    unfold no_long_word in Hshort. rewrite List.Forall_forall in Hshort.
    apply Hshort in Hw. rewrite length_padded in Hc. lia. }
  apply length_join_le in Hle.
  rewrite join_split_text, length_append, length_replace in Hle.
  simpl in Hle. split; [| lia].
  destruct (List.length (Chunker.split_text B T)) as [|[|n]]; lia.
Qed.

(** Eleven characters under a budget of eight: two chunks. *)
Lemma split_text_at_least_two_witness :
  2 <= List.length (Chunker.split_text 8 "ab cd efg h")
  /\ String.length "ab cd efg h" + 1
     <= 8 * List.length (Chunker.split_text 8 "ab cd efg h").
Proof.
  apply (split_text_at_least_two 8 "ab cd efg h").
  - unfold no_long_word. simpl. repeat constructor.
  - simpl. lia.
Defined.

(** X9. A text shorter than the budget is not cut: [split_text] answers
    the one chunk made of the text, its newlines turned into spaces,
    and a trailing space. *)
Theorem split_text_short (B : nat) (T : string) :
  String.length T < B ->
  Chunker.split_text B T
  = [PyStr.replace PyStr.newline PyStr.space T +:+ String PyStr.space EmptyString].
Proof.
  intros Hshort. unfold Chunker.split_text.
  rewrite loop_fills.
  - rewrite join_padded_split, append_nil_l.
    destruct (PyStr.replace PyStr.newline PyStr.space T
              +:+ String PyStr.space EmptyString) eqn:E; [| reflexivity].
    apply (f_equal String.length) in E. rewrite length_append in E.
    simpl in E. lia.
  - rewrite join_padded_split, length_append, length_replace. simpl. lia.
Qed.

(** Two lines of a few words under the budget of the service. *)
Lemma split_text_short_witness :
  Chunker.split_text 600 ("Hello there." +:+ String PyStr.newline "How are you?")
  = ["Hello there. How are you? "].
Proof.
  apply (split_text_short 600
           ("Hello there." +:+ String PyStr.newline "How are you?")).
  simpl. lia.
Defined.

(** X10. [split_text] packs greedily: any two consecutive chunks are
    together longer than the budget, so no chunk could have taken the
    first word of the next one. *)
Theorem split_text_consecutive_apart (B : nat) (T : string) :
  consecutive (apart B) (Chunker.split_text B T).
Proof.
  unfold Chunker.split_text.
  pose proof (loop_apart B (PyStr.split PyStr.space T) [] EmptyString I) as H.
  destruct (fold_left _ _ _) as [cl cs]. simpl in H.
  destruct (0 <? String.length cs)%nat eqn:E; [exact H |].
  apply Nat.ltb_ge in E. destruct cs; [| simpl in E; lia].
  clear E. induction cl as [|a cl IH]; [exact I |].
  destruct cl as [|b cl]; [exact I |].
  simpl in *. destruct H as [Hab H]. split; [exact Hab |]. now apply IH.
Qed.

(** ** Synthesis orchestrator, further *)

(** A first piece that alone reaches the budget leaves an empty first
    chunk. *)
Lemma split_text_leading_chunk (B : nat) (T : string) :
  B <= String.length (List.hd EmptyString (PyStr.split PyStr.space T)) ->
  exists rest, Chunker.split_text B T = EmptyString :: rest.
Proof.
  intros Hword.
  destruct (split_text_structure B T)
    as (first & rest & more & last & Hsplit & _ & _ & ->).
  rewrite Hsplit in Hword. simpl in Hword.
  assert (Hlt : (B <? String.length (Chunker.padded first))%nat = true).
  { apply Nat.ltb_lt. rewrite length_padded. lia. }
  rewrite Hlt. simpl. eauto.
Qed.

Section GenerateMore.

Import SileroTtsService.

Context `{Pydub}.

Variable self : SileroTtsService.t.

Lemma keeps_model_save_wav (text speaker : string) :
  keeps (model_save_wav self text speaker).
Proof.
  unfold model_save_wav. apply keeps_bind; [apply keeps_external |].
  intros out. apply keeps_bind; [apply keeps_write_file |].
  intros u. apply keeps_ret.
Qed.

Lemma keeps_from_file (p : Path) : keeps (from_file p).
Proof.
  apply keeps_readonly. unfold from_file.
  apply readonly_bind; [apply readonly_read_file |].
  intros data. apply readonly_external.
Qed.

Lemma keeps_add_chunk (speaker : string) (acc : AudioSegment) (chunk : string) :
  keeps (add_chunk self speaker acc chunk).
Proof.
  unfold add_chunk. apply keeps_bind; [apply keeps_model_save_wav |].
  intros p. apply keeps_bind; [apply keeps_from_file |].
  intros seg. apply keeps_ret.
Qed.

Lemma keeps_get_session_path (sessions : SessionManager.t) (session : string) :
  keeps (SessionManager.get_session_path sessions session).
Proof.
  apply keeps_readonly. unfold SessionManager.get_session_path.
  apply readonly_bind; [apply readonly_path_exists |].
  intros [|]; simpl; [apply readonly_ret | apply readonly_raise].
Qed.

Lemma raises_model_save_wav (text speaker : string) :
  raises_only from_below (model_save_wav self text speaker).
Proof.
  unfold model_save_wav.
  apply raises_only_bind; [apply raises_only_external |].
  intros out. apply raises_only_bind; [apply raises_only_lift_os |].
  intros u. apply raises_only_ret.
Qed.

Lemma raises_from_file (p : Path) : raises_only from_below (from_file p).
Proof.
  unfold from_file. apply raises_only_bind; [apply raises_only_read_file |].
  intros data. apply raises_only_external.
Qed.

Lemma raises_add_chunk (speaker : string) (acc : AudioSegment) (chunk : string) :
  raises_only from_below (add_chunk self speaker acc chunk).
Proof.
  unfold add_chunk. apply raises_only_bind; [apply raises_model_save_wav |].
  intros p. apply raises_only_bind; [apply raises_from_file |].
  intros seg. apply raises_only_ret.
Qed.

(** Past its session check, [generate] raises only what the operating
    system and the collaborators raise. *)
Lemma generate_past_check (now : N) (speaker text session : string)
    (fs fs' : FS) (e : exn) :
  exists_ (session_dir (session_manager self) session) fs = true ->
  generate self now speaker text session fs = (Raise e, fs') ->
  from_below e.
Proof.
  intros Hex. unfold generate. unfold bind at 1.
  rewrite (get_session_path_present _ _ _ Hex). clear Hex.
  revert fs e fs'. fold (raises_only (A:=Path) from_below).
  destruct (_ <? _)%nat.
  - cbv zeta.
    apply raises_only_bind.
    + apply raises_only_for_fold. intros acc chunk. apply raises_add_chunk.
    + intros seg. apply raises_only_bind; [apply raises_only_lift_os |].
      intros u. apply raises_only_ret.
  - apply raises_only_bind; [apply raises_model_save_wav |].
    intros p. cbv zeta. apply raises_only_bind; [apply raises_only_lift_os |].
    intros u. apply raises_only_ret.
Qed.

Lemma keeps_generate (now : N) (speaker text session : string) :
  keeps (generate self now speaker text session).
Proof.
  unfold generate.
  apply keeps_bind; [apply keeps_get_session_path |].
  intros session_path. destruct (_ <? _)%nat.
  - cbv zeta. apply keeps_bind.
    + apply keeps_for_fold. intros acc chunk. apply keeps_add_chunk.
    + intros seg. apply keeps_bind; [apply keeps_write_file |].
      intros u. apply keeps_ret.
  - apply keeps_bind; [apply keeps_model_save_wav |].
    intros p. cbv zeta. apply keeps_bind; [apply keeps_copy |].
    intros u. apply keeps_ret.
Qed.

Lemma keeps_ensure_dir (p : Path) (present : bool) :
  keeps (if negb present then OS.mkdir_parents p else ret tt).
Proof. destruct present; [apply keeps_ret | apply keeps_mkdir_parents]. Qed.

Lemma keeps_init_session_path (sessions : SessionManager.t) (id : string) :
  keeps (SessionManager.init_session_path sessions id).
Proof.
  unfold SessionManager.init_session_path. cbv zeta.
  apply keeps_bind; [apply keeps_readonly, readonly_path_exists |].
  intros present. apply keeps_bind; [apply keeps_ensure_dir |].
  intros u. apply keeps_ret.
Qed.

Lemma keeps_create_session (sessions : SessionManager.t) (today : string)
    (id : option string) :
  keeps (SessionManager.create_session sessions today id).
Proof.
  destruct id as [id|]; [apply keeps_ret |].
  unfold SessionManager.create_session. cbv zeta.
  apply keeps_bind; [apply keeps_readonly, readonly_path_exists |].
  intros present. apply keeps_bind; [apply keeps_ensure_dir |].
  intros u. apply keeps_ret.
Qed.

Lemma raises_create_session (sessions : SessionManager.t) (today : string) :
  raises_only from_below (SessionManager.create_session sessions today None).
Proof.
  unfold SessionManager.create_session. cbv zeta.
  apply raises_only_bind; [intros fs e fs' [=] |].
  intros present. apply raises_only_bind.
  - destruct (negb present); [apply raises_only_lift_os | apply raises_only_ret].
  - intros u. apply raises_only_ret.
Qed.

(** What a successful copy onto a path that is no directory does. *)
Lemma copy_ok (src dst : Path) (fs fs' : FS) (u : unit) :
  is_dir dst fs = false ->
  OS.copy src dst fs = (Ok u, fs') ->
  exists data,
    node_at src fs = Some (File data)
    /\ src <> dst
    /\ fs' = fs_insert dst (File data) fs
    /\ node_at dst fs' = Some (File data).
Proof.
  intros Hdst. unfold OS.copy, OS.lift_os.
  destruct (node_at src fs) as [[|data]|]; try discriminate.
  rewrite Hdst.
  destruct (bool_decide (src = dst)) eqn:Ene; [discriminate |].
  apply bool_decide_eq_false in Ene.
  destruct (OS.write1 dst data fs) as [fs1|] eqn:Ew; [| discriminate].
  intros E0. injection E0 as _ E0. subst fs'.
  apply node_at_written in Ew. destruct Ew as [Hfs Hn].
  exists data. repeat split; assumption || reflexivity.
Qed.

End GenerateMore.

(** X11. [generate] (tts.py, lines 90-92) raises SessionNotInitialized
    exactly when the directory of the session does not exist, and then
    it has changed nothing on the disk: the check comes before the model
    is asked for anything, and nothing later in the function raises that
    exception. *)
Theorem generate_session_not_initialized `{Pydub} (self : SileroTtsService.t)
    (now : N) (speaker text session : string) (fs fs' : FS) :
  SileroTtsService.generate self now speaker text session fs
  = (Raise SessionNotInitialized, fs')
  <-> exists_ (session_dir (SileroTtsService.session_manager self) session) fs
      = false
      /\ fs' = fs.
Proof.
  split.
  - intros Hrun.
    destruct (exists_ (session_dir (SileroTtsService.session_manager self)
                         session) fs) eqn:Hex.
    + apply (generate_past_check self now speaker text session fs fs' _ Hex)
        in Hrun.
      destruct Hrun; discriminate.
    + unfold SileroTtsService.generate in Hrun. unfold bind at 1 in Hrun.
      rewrite (get_session_path_absent _ _ _ Hex) in Hrun.
      now injection Hrun as <-.
  - intros [Hex ->]. unfold SileroTtsService.generate. unfold bind at 1.
    now rewrite (get_session_path_absent _ _ _ Hex).
Qed.

(** X12. A successful [generate] of a text within the threshold (tts.py,
    lines 107-112) touches two paths and no other: the file the model
    wrote and its copy in the session directory, which hold the same
    bytes afterwards (the name of the copy being no directory). *)
Theorem generate_short_two_files `{Pydub} (self : SileroTtsService.t) (now : N)
    (speaker text session : string) (fs fs' : FS) (p : Path) :
  String.length text <= SileroTtsService.max_char_length self ->
  let dst :=
    joinpath (session_dir (SileroTtsService.session_manager self) session)
      (of_str (audio_name speaker session now ".wav")) in
  is_dir dst fs = false ->
  SileroTtsService.generate self now speaker text session fs = (Ok p, fs') ->
  exists data,
    node_at p fs' = Some (File data)
    /\ node_at dst fs' = Some (File data)
    /\ p <> dst
    /\ forall q, q <> p -> q <> dst -> node_at q fs' = node_at q fs.
Proof.
  intros Hshort dst Hdst Hrun. unfold SileroTtsService.generate in Hrun.
  unfold bind at 1 in Hrun. step_in Hrun as session_path fs1 E.
  apply get_session_path_ok in E. destruct E as (-> & -> & _).
  apply Nat.ltb_ge in Hshort. rewrite Hshort in Hrun.
  unfold bind at 1 in Hrun. step_in Hrun as q fs1 E.
  apply model_save_wav_ok in E.
  destruct E as (out & data & Hsave & -> & -> & Hnode).
  unfold bind in Hrun. step_in Hrun as u fs2 E. injection Hrun as <- <-.
  fold (audio_name speaker session now ".wav") in E. fold dst in E.
  assert (Hdst1 : is_dir dst (fs_insert (of_str out) (File data) fs) = false).
  { destruct (decide (of_str out = dst)) as [<- | Hne].
    - unfold is_dir. rewrite Hnode. now apply bool_decide_eq_false_2.
    - unfold is_dir in *. now rewrite node_at_insert_ne. }
  apply (copy_ok _ _ _ _ _ Hdst1) in E.
  destruct E as (data' & Hsrc & Hne & -> & Hcopy).
  rewrite Hnode in Hsrc. injection Hsrc as <-.
  exists data. repeat split.
  - rewrite node_at_insert_ne by auto. exact Hnode.
  - exact Hcopy.
  - exact Hne.
  - intros q Hq1 Hq2. now rewrite !node_at_insert_ne by auto.
Qed.

Lemma generate_short_two_files_witness :
  let run :=
    @SileroTtsService.generate Demo.pydub Demo.service Demo.now
      "en_0" Demo.short_text Demo.today Demo.disk_dated in
  let dst := of_str "sessions/20261103/tts_en_0_20261103_1793700000.wav" in
  exists data,
    node_at (of_str "test.wav") (snd run) = Some (File data)
    /\ node_at dst (snd run) = Some (File data)
    /\ of_str "test.wav" <> dst
    /\ forall q, q <> of_str "test.wav" -> q <> dst ->
                 node_at q (snd run) = node_at q Demo.disk_dated.
Proof.
  intros run dst.
  apply (@generate_short_two_files Demo.pydub Demo.service Demo.now
           "en_0" Demo.short_text Demo.today Demo.disk_dated (snd run)
           (of_str "test.wav")).
  - vm_compute. lia.
  - vm_compute. reflexivity.
  - vm_compute. reflexivity.
Defined.

(** X13. Synthesis removes nothing: whatever existed before a call of
    [generate] (tts.py, lines 90-112) or of the endpoint that prepares
    its session and calls it (server.py, lines 68-75) exists after it,
    whether the call answers or raises, for a short text and for a long
    one. *)
Theorem generate_removes_nothing `{Pydub} (self : SileroTtsService.t) (now : N) :
  (forall speaker text session,
     keeps (SileroTtsService.generate self now speaker text session))
  /\ (forall today voice, keeps (Server.generate_try self today now voice)).
Proof.
  split; [intros speaker text session; apply keeps_generate |].
  intros today voice. unfold Server.generate_try. cbv zeta.
  apply keeps_bind; [| intros id; apply keeps_generate].
  destruct (Server.session voice) as [id|]; [| apply keeps_create_session].
  apply keeps_bind; [apply keeps_get_session_path |].
  intros p. apply keeps_bind; [apply keeps_init_session_path |].
  intros q. apply keeps_ret.
Qed.

(** X14. The empty first chunk reaches the model: when a text over the
    threshold starts with a word that alone fills the budget, the first
    thing [generate] asks the model for is the empty text (tts.py, lines
    97-100 with 121-124), so with a model that refuses the empty text
    the whole request fails, and nothing has been written. *)
Theorem generate_long_first_word_refused `{Pydub} (self : SileroTtsService.t)
    (now : N) (speaker text session : string) (fs : FS) :
  SileroTtsService.max_char_length self < String.length text ->
  SileroTtsService.max_char_length self
  <= String.length (List.hd EmptyString (PyStr.split PyStr.space text)) ->
  save_wav (SileroTtsService.model self) EmptyString speaker
    (SileroTtsService.sample_rate self) = None ->
  exists_ (session_dir (SileroTtsService.session_manager self) session) fs
  = true ->
  SileroTtsService.generate self now speaker text session fs
  = (Raise ExternalError, fs).
Proof.
  intros Hlong Hword Hrefuse Hex.
  unfold SileroTtsService.generate. unfold bind at 1.
  rewrite (get_session_path_present _ _ _ Hex).
  apply Nat.ltb_lt in Hlong. rewrite Hlong. cbv zeta.
  unfold SileroTtsService.split_text.
  destruct (split_text_leading_chunk (SileroTtsService.max_char_length self)
              text Hword) as (rest & ->).
  unfold bind at 1. simpl for_fold. unfold bind at 1.
  unfold SileroTtsService.add_chunk. unfold bind at 1.
  unfold SileroTtsService.model_save_wav. unfold bind at 1.
  now rewrite Hrefuse.
Qed.

Lemma generate_long_first_word_refused_witness :
  @SileroTtsService.generate Demo.pydub Demo.service Demo.now "en_0"
    (PyStr.times "x" 600 +:+ " and more") Demo.today Demo.disk_dated
  = (Raise ExternalError, Demo.disk_dated).
Proof.
  apply (@generate_long_first_word_refused Demo.pydub Demo.service Demo.now
           "en_0" (PyStr.times "x" 600 +:+ " and more") Demo.today
           Demo.disk_dated).
  - vm_compute. lia.
  - vm_compute. lia.
  - reflexivity.
  - vm_compute. reflexivity.
Defined.

(** ** Sessions and the calls that made them *)

Section SessionHistory.

Import SessionManager.

Variable self : SessionManager.t.










End SessionHistory.




(** ** Language registry and service construction, further *)

Section DictFacts.

Lemma dict_set_in (k v k' v' : string) (d : dict) :
  List.In (k', v') (Dict.set k v d) ->
  List.In (k', v') d \/ (k' = k /\ v' = v).
Proof.
  induction d as [|[k0 v0] d IH]; simpl.
  - intros [[= <- <-] | []]. now right.
  - destruct (String.eqb k0 k) eqn:E.
    + apply String.eqb_eq in E. subst k0.
      intros [[= <- <-] | Hin]; [now right | left; now right].
    + intros [Heq | Hin]; [left; now left |].
      destruct (IH Hin) as [Hd | Hnew]; [left; now right | now right].
Qed.

Lemma dict_set_key (k v k' : string) (d : dict) :
  List.In k' (Dict.keys (Dict.set k v d)) ->
  List.In k' (Dict.keys d) \/ k' = k.
Proof.
  unfold Dict.keys. rewrite !List.in_map_iff.
  intros ([k1 v1] & <- & Hin). simpl.
  destruct (dict_set_in _ _ _ _ _ Hin) as [Hd | [-> _]]; [| now right].
  left. now exists (k1, v1).
Qed.

(** [d[k] = v] keeps the keys of a dictionary distinct. *)
Lemma dict_set_nodup (k v : string) (d : dict) :
  List.NoDup (Dict.keys d) -> List.NoDup (Dict.keys (Dict.set k v d)).
Proof.
  induction d as [|[k0 v0] d IH]; simpl; intros Hnd.
  - constructor; [intros [] | constructor].
  - destruct (String.eqb k0 k) eqn:E; [exact Hnd |].
    inversion Hnd as [|? ? Hk0 Hd]; subst. simpl. constructor.
    + intros Hin. destruct (dict_set_key _ _ _ _ Hin) as [Hold | ->];
        [contradiction |].
      now rewrite String.eqb_refl in E.
    + now apply IH.
Qed.

End DictFacts.

Section RegistryMore.

Import SileroTtsService.

Context `{Json} `{Requests}.

Variable langs : list string.

Lemma registry_of_nil : registry_of langs [].
Proof. split; [constructor | intros k v []]. Qed.

(** Lines 184-186 keep a registry of the index one. *)
Lemma add_v3_files_registry (lang : string) (lang_files : list string)
    (d : dict) :
  List.In lang langs -> registry_of langs d ->
  registry_of langs (add_v3_files lang lang_files d).
Proof.
  intros Hlang. unfold add_v3_files. revert d.
  induction lang_files as [|f fs IH]; intros d Hd; cbn [fold_left];
    [exact Hd |].
  apply IH. destruct (PyStr.startswith "v3" f) eqn:Ev; [| exact Hd].
  destruct Hd as [Hnd Hall]. split; [now apply dict_set_nodup |].
  intros k v Hin. destruct (dict_set_in _ _ _ _ _ Hin) as [Hold | [-> ->]].
  - now apply Hall.
  - split; [exact Ev |]. now exists lang.
Qed.

Lemma readonly_visit (d : dict) (lang : string) : readonly (visit d lang).
Proof.
  unfold visit. apply readonly_bind; [apply readonly_external |].
  intros r. destruct (negb (ok r)); [apply readonly_raise | apply readonly_ret].
Qed.

Lemma visit_registry (d d' : dict) (lang : string) (fs fs' : FS) :
  List.In lang langs -> registry_of langs d ->
  visit d lang fs = (Ok d', fs') -> registry_of langs d'.
Proof.
  intros Hlang Hd. unfold visit, bind.
  destruct (requests_get _) as [r|]; simpl; [| discriminate].
  destruct (negb (ok r)); [discriminate |].
  intros [= <- _]. now apply add_v3_files_registry.
Qed.

Lemma visits_registry (ls : list string) (d d' : dict) (fs fs' : FS) :
  (forall l, List.In l ls -> List.In l langs) -> registry_of langs d ->
  for_fold ls visit d fs = (Ok d', fs') -> registry_of langs d'.
Proof.
  revert d fs. induction ls as [|l ls IH]; intros d fs Hls Hd Hrun.
  - now injection Hrun as <- _.
  - simpl in Hrun. unfold bind in Hrun. step_in Hrun as d1 fs1 E.
    apply (IH d1 fs1); [intros l' Hl'; apply Hls; now right | | exact Hrun].
    apply (visit_registry d d1 l fs fs1); [apply Hls; now left | exact Hd
                                          | exact E].
Qed.

(** Languages whose listing is answered and ok are passed; the first
    one whose listing is not ok stops the loop with its status. *)
Lemma visits_stop (pre post : list string) (lang : string) (bad : Response)
    (d : dict) (fs : FS) :
  (forall l, List.In l pre ->
     exists r, requests_get (lang_base_url +:+ "/" +:+ l) = Some r
               /\ ok r = true) ->
  requests_get (lang_base_url +:+ "/" +:+ lang) = Some bad ->
  ok bad = false ->
  for_fold (pre ++ lang :: post) visit d fs
  = (Raise (FailedToGetLanguages (status_code bad)), fs).
Proof.
  intros Hpre Hbad Hok. revert d. induction pre as [|l pre IH]; intros d.
  - simpl. unfold bind, visit, bind. rewrite Hbad. simpl. now rewrite Hok.
  - simpl. unfold bind at 1. unfold visit at 1. unfold bind at 1.
    destruct (Hpre l) as (r & -> & Hr); [now left |]. simpl. rewrite Hr. simpl.
    apply IH. intros l' Hl'. apply Hpre. now right.
Qed.

Lemma list_languages_remote (fs : FS) :
  exists_ cache_file fs = false ->
  list_languages fs
  = (response <- external (requests_get lang_base_url) ;;
     lang_urls <- for_fold (links "/"%char (text response)) visit [] ;;
     write_cache lang_urls) fs.
Proof.
  intros Hc. unfold list_languages. unfold bind at 1, OS.path_exists.
  now rewrite Hc.
Qed.

Lemma list_languages_local (fs : FS) :
  exists_ cache_file fs = true ->
  list_languages fs
  = (data <- OS.read_file cache_file ;; external (json_load data)) fs.
Proof.
  intros Hc. unfold list_languages. unfold bind at 1, OS.path_exists.
  now rewrite Hc.
Qed.

Lemma readonly_local :
  readonly (data <- OS.read_file cache_file ;; external (json_load data)).
Proof.
  apply readonly_bind; [apply readonly_read_file |].
  intros data. apply readonly_external.
Qed.

Lemma atomic_write_cache (m : dict) : atomic (write_cache m).
Proof.
  intros fs e fs'. unfold write_cache, bind, OS.write_file, OS.lift_os.
  destruct (OS.write1 _ _ fs); [discriminate | now intros [= _ <-]].
Qed.

Lemma write_cache_ok (m r : dict) (fs fs' : FS) :
  write_cache m fs = (Ok r, fs') ->
  r = m /\ fs' = fs_insert cache_file (File (json_dump m)) fs
  /\ node_at cache_file fs' = Some (File (json_dump m)).
Proof.
  unfold write_cache, bind. intros Hrun. step_in Hrun as u fs1 E.
  injection Hrun as <- <-.
  apply write_file_ok, node_at_written in E. tauto.
Qed.

End RegistryMore.

Section LoadModelMore.

Import SileroTtsService.

Context `{Torch}.

(** What a successful [load_model] has found or put in place. *)
Lemma load_model_ok (langs : dict) (lang : string) (fs fs' : FS)
    (f : Path) (m : Model) :
  load_model langs lang fs = (Ok (f, m), fs') ->
  exists url package,
    Dict.get lang langs = Some url
    /\ f = of_str lang
    /\ node_at (of_str lang) fs' = Some (File package)
    /\ load_pickle package = Some m
    /\ (is_file (of_str lang) fs = true -> fs' = fs).
Proof.
  unfold load_model. destruct (Dict.get lang langs) as [url|]; [| discriminate].
  cbv zeta. unfold bind at 1, OS.path_is_file. intros Hrun.
  unfold bind at 1 in Hrun. step_in Hrun as u fs1 E.
  unfold bind at 1, OS.read_file in Hrun.
  destruct (node_at (of_str lang) fs1) as [[|package]|] eqn:En;
    try discriminate.
  unfold bind, external in Hrun.
  destruct (load_pickle package) as [m0|] eqn:El; [| discriminate].
  injection Hrun as <- <- <-.
  exists url, package. repeat split; try assumption.
  intros Hf. rewrite Hf in E. now injection E as _ <-.
Qed.

(** Over a model file that is in place nothing is downloaded. *)
Lemma load_model_present (langs : dict) (lang url package : string)
    (m : Model) (fs : FS) :
  Dict.get lang langs = Some url ->
  node_at (of_str lang) fs = Some (File package) ->
  load_pickle package = Some m ->
  load_model langs lang fs = (Ok (of_str lang, m), fs).
Proof.
  intros Hget Hnode Hload. unfold load_model. rewrite Hget. cbv zeta.
  unfold bind, OS.path_is_file, OS.read_file, is_file.
  rewrite Hnode. simpl. rewrite Hnode, Hload. reflexivity.
Qed.

Lemma keeps_load_model (langs : dict) (lang : string) :
  keeps (load_model langs lang).
Proof.
  unfold load_model. destruct (Dict.get lang langs); [| apply keeps_raise].
  cbv zeta. apply keeps_bind; [apply keeps_readonly, readonly_path_is_file |].
  intros present. apply keeps_bind.
  - destruct (negb present); [| apply keeps_ret].
    apply keeps_bind; [apply keeps_external |].
    intros data. apply keeps_write_file.
  - intros u. apply keeps_bind; [apply keeps_readonly, readonly_read_file |].
    intros package. apply keeps_bind; [apply keeps_external |].
    intros m. apply keeps_ret.
Qed.

End LoadModelMore.

Section InitMore.

Import SileroTtsService.

Context `{Json} `{Requests} `{Torch}.

Lemma keeps_list_languages : keeps list_languages.
Proof.
  unfold list_languages. cbv zeta.
  apply keeps_bind; [apply keeps_readonly, readonly_path_exists |].
  intros [|].
  - apply keeps_bind; [apply keeps_readonly, readonly_read_file |].
    intros data. apply keeps_external.
  - apply keeps_bind; [apply keeps_external |].
    intros response. apply keeps_bind.
    + apply keeps_readonly, readonly_for_fold. intros d lang.
      apply (readonly_visit d lang).
    + intros d. unfold write_cache.
      apply keeps_bind; [apply keeps_write_file |].
      intros u. apply keeps_ret.
Qed.

Lemma keeps_session_manager_init (base : string) :
  keeps (SessionManager.init base).
Proof.
  unfold SessionManager.init. cbv zeta.
  apply keeps_bind; [apply keeps_mkdir_exist_ok |].
  intros u. apply keeps_ret.
Qed.

(** [SessionManager()] leaves its directory, and what there was as it
    was. *)
Lemma session_manager_init_ok (base : string) (fs fs' : FS)
    (sm : SessionManager.t) :
  SessionManager.init base fs = (Ok sm, fs') ->
  sm = {| SessionManager.sessions_path := of_str base |}
  /\ is_dir (of_str base) fs' = true
  /\ forall q, exists_ q fs = true -> node_at q fs' = node_at q fs.
Proof.
  unfold SessionManager.init, bind, OS.mkdir_exist_ok, OS.lift_os.
  cbv beta zeta.
  destruct (is_dir (of_str base) fs) eqn:Ed.
  - intros [= <- <-]. auto.
  - unfold OS.mkdir1. destruct (exists_ (of_str base) fs) eqn:Ex;
      [discriminate |].
    destruct (is_dir (parent (of_str base)) fs); [| discriminate].
    intros [= <- <-]. split; [reflexivity |]. split.
    + apply is_dir_true, node_at_insert_dir.
    + intros q Hq. apply node_at_insert_ne. intros <-. congruence.
Qed.

(** The guarded [mkdir] of lines 54-55 leaves something at the path. *)
Lemma ensure_sample_path (p : Path) (fs fs' : FS) (u : unit) :
  (if negb (exists_ p fs) then OS.mkdir p else ret tt) fs = (Ok u, fs') ->
  exists_ p fs' = true.
Proof.
  destruct (exists_ p fs) eqn:Ex; simpl.
  - now intros [= _ <-].
  - unfold OS.mkdir, OS.lift_os, OS.mkdir1. rewrite Ex.
    destruct (is_dir (parent p) fs); [| discriminate].
    intros [= _ <-]. apply exists_true. rewrite node_at_insert_dir. eauto.
Qed.

(** After [list_languages] has answered, the cache file path exists. *)
Lemma list_languages_leaves_cache (fs fs' : FS) (m : dict) :
  list_languages fs = (Ok m, fs') -> exists_ cache_file fs' = true.
Proof.
  destruct (exists_ cache_file fs) eqn:Hc.
  - intros Hrun. pose proof Hrun as Hk.
    apply (keeps_list_languages fs _ fs' cache_file) in Hk; auto.
  - intros Hrun.
    destruct (list_languages_first_writes fs fs' m Hc Hrun) as [fs0 Hw].
    apply write_cache_ok in Hw. destruct Hw as (_ & _ & Hn).
    apply exists_true. rewrite Hn. eauto.
Qed.

End InitMore.

(** X15. With something at the path of the cache file, [list_languages]
    (tts.py, lines 163-167) asks nothing of the network and writes
    nothing: its answer is the same whatever [requests] would have
    answered, and the disk is left as it was. *)
Theorem list_languages_offline `{Json} (online offline : Requests) (fs : FS) :
  exists_ SileroTtsService.cache_file fs = true ->
  @SileroTtsService.list_languages _ online fs
  = @SileroTtsService.list_languages _ offline fs
  /\ snd (@SileroTtsService.list_languages _ online fs) = fs.
Proof.
  intros Hc.
  rewrite (@list_languages_local _ online fs Hc).
  rewrite (@list_languages_local _ offline fs Hc).
  split; [reflexivity |].
  destruct (bind _ _ fs) as [r fs'] eqn:E. simpl.
  now apply readonly_local in E.
Qed.

Lemma list_languages_offline_witness :
  @SileroTtsService.list_languages Demo.json Demo.requests Cases.disk_started
  = @SileroTtsService.list_languages Demo.json Cases.requests_down
      Cases.disk_started
  /\ snd (@SileroTtsService.list_languages Demo.json Demo.requests
            Cases.disk_started) = Cases.disk_started.
Proof.
  apply (@list_languages_offline Demo.json Demo.requests Cases.requests_down
           Cases.disk_started).
  vm_compute. reflexivity.
Defined.

(** X16. [list_languages] (tts.py, lines 161-188) touches no path but
    the cache file, and when it raises it has changed nothing: the
    registry goes to the disk in one write, after every listing has been
    read. *)
Theorem list_languages_touches_cache_only `{Json} `{Requests} (fs fs' : FS)
    (r : result dict) :
  SileroTtsService.list_languages fs = (r, fs') ->
  (forall q, q <> SileroTtsService.cache_file -> node_at q fs' = node_at q fs)
  /\ (forall e, r = Raise e -> fs' = fs).
Proof.
  intros Hrun.
  destruct (exists_ SileroTtsService.cache_file fs) eqn:Hc.
  - rewrite (list_languages_local fs Hc) in Hrun.
    apply readonly_local in Hrun. subst fs'. auto.
  - rewrite (list_languages_remote fs Hc) in Hrun.
    unfold bind at 1 in Hrun.
    destruct (requests_get SileroTtsService.lang_base_url) as [index|];
      simpl in Hrun; [| injection Hrun as <- <-; auto].
    unfold bind at 1 in Hrun.
    destruct (for_fold _ visit [] fs) as [[d|e] fs1] eqn:E.
    + apply (readonly_for_fold _ visit [] readonly_visit) in E. subst fs1.
      destruct r as [m|e].
      * apply write_cache_ok in Hrun. destruct Hrun as (_ & -> & _).
        split; [| discriminate].
        intros q Hq. now apply node_at_insert_ne.
      * apply atomic_write_cache in Hrun. subst fs'. auto.
    + apply (readonly_for_fold _ visit [] readonly_visit) in E. subst fs1.
      injection Hrun as <- <-. auto.
Qed.

Lemma list_languages_touches_cache_only_witness :
  let run :=
    @SileroTtsService.list_languages Demo.json Demo.requests Demo.disk in
  (forall q, q <> SileroTtsService.cache_file ->
             node_at q (snd run) = node_at q Demo.disk)
  /\ (forall e, fst run = Raise e -> snd run = Demo.disk).
Proof.
  intros run.
  apply (@list_languages_touches_cache_only Demo.json Demo.requests
           Demo.disk (snd run) (fst run)).
  vm_compute. reflexivity.
Defined.

(** X17. On a first run, the first language of the index whose listing
    is answered but not ok (tts.py, lines 177-180) makes
    [list_languages] raise with the status code of that answer, the
    listings of the languages before it having been answered and ok;
    the languages after it are not asked for, and nothing is written. *)
Theorem list_languages_failed_listing `{Json} `{Requests} (fs : FS)
    (index bad : Response) (pre post : list string) (lang : string) :
  exists_ SileroTtsService.cache_file fs = false ->
  requests_get SileroTtsService.lang_base_url = Some index ->
  SileroTtsService.links "/"%char (text index) = pre ++ lang :: post ->
  (forall l, List.In l pre ->
     exists r,
       requests_get (SileroTtsService.lang_base_url +:+ "/" +:+ l) = Some r
       /\ ok r = true) ->
  requests_get (SileroTtsService.lang_base_url +:+ "/" +:+ lang) = Some bad ->
  ok bad = false ->
  SileroTtsService.list_languages fs
  = (Raise (FailedToGetLanguages (status_code bad)), fs).
Proof.
  intros Hc Hindex Hlinks Hpre Hbad Hok.
  rewrite (list_languages_remote fs Hc).
  unfold bind at 1. rewrite Hindex. simpl. rewrite Hlinks.
  unfold bind at 1.
  now rewrite (visits_stop pre post lang bad [] fs Hpre Hbad Hok).
Qed.

Lemma list_languages_failed_listing_witness :
  @SileroTtsService.list_languages Demo.json Cases.requests_broken Demo.disk
  = (Raise (FailedToGetLanguages 503), Demo.disk).
Proof.
  apply (@list_languages_failed_listing Demo.json Cases.requests_broken
           Demo.disk
           {| ok := true; status_code := 200;
              text := "<pre>" +:+ Demo.href "en/" +:+ Demo.href "fr/"
                      +:+ "</pre>" |}
           {| ok := false; status_code := 503; text := EmptyString |}
           ["en"] [] "fr").
  - vm_compute. reflexivity.
  - vm_compute. reflexivity.
  - vm_compute. reflexivity.
  - intros l [<- | []].
    exists {| ok := true; status_code := 200;
              text := "<pre>" +:+ Demo.href "v3_en.pt" +:+ "</pre>" |}.
    split; vm_compute; reflexivity.
  - vm_compute. reflexivity.
  - reflexivity.
Defined.

(** X18. The registry a first run of [list_languages] answers (tts.py,
    lines 170-186) has no key twice, every key starts with v3, and every
    value is the URL of its key under one of the languages the index
    links to. *)
Theorem list_languages_registry `{Json} `{Requests} (fs fs' : FS) (m : dict) :
  exists_ SileroTtsService.cache_file fs = false ->
  SileroTtsService.list_languages fs = (Ok m, fs') ->
  exists index,
    requests_get SileroTtsService.lang_base_url = Some index
    /\ registry_of (SileroTtsService.links "/"%char (text index)) m.
Proof.
  intros Hc Hrun. rewrite (list_languages_remote fs Hc) in Hrun.
  unfold bind at 1 in Hrun.
  destruct (requests_get SileroTtsService.lang_base_url) as [index|];
    simpl in Hrun; [| discriminate].
  exists index. split; [reflexivity |].
  unfold bind at 1 in Hrun. step_in Hrun as d fs1 E.
  apply write_cache_ok in Hrun. destruct Hrun as (-> & _).
  eapply visits_registry; [| apply registry_of_nil | exact E].
  auto.
Qed.

Lemma list_languages_registry_witness :
  exists index,
    @requests_get Demo.requests SileroTtsService.lang_base_url = Some index
    /\ registry_of (SileroTtsService.links "/"%char (text index))
         Demo.registry.
Proof.
  apply (@list_languages_registry Demo.json Demo.requests Demo.disk
           (snd (@SileroTtsService.list_languages Demo.json Demo.requests
                   Demo.disk))
           Demo.registry).
  - vm_compute. reflexivity.
  - vm_compute. reflexivity.
Defined.

(** X19. After [load_model] has succeeded (tts.py, lines 73-88) the
    model file is in place: a second call for the same language answers
    the same file and model, changes nothing on the disk, and downloads
    nothing, whatever a download would have answered. *)
Theorem load_model_again `{Torch} (langs : dict) (lang : string)
    (fs fs' : FS) (f : Path) (m : Model) (download : string -> option string) :
  SileroTtsService.load_model langs lang fs = (Ok (f, m), fs') ->
  @SileroTtsService.load_model
    {| download_url := download; load_pickle := load_pickle |}
    langs lang fs'
  = (Ok (f, m), fs').
Proof.
  intros Hrun. apply load_model_ok in Hrun.
  destruct Hrun as (url & package & Hget & -> & Hnode & Hload & _).
  now apply (@load_model_present
               {| download_url := download; load_pickle := load_pickle |}
               langs lang url package).
Qed.

Lemma load_model_again_witness :
  let run :=
    @SileroTtsService.load_model Demo.torch Demo.registry "v3_en.pt" Demo.disk in
  @SileroTtsService.load_model Cases.torch_offline Demo.registry "v3_en.pt"
    (snd run)
  = (Ok (of_str "v3_en.pt", Demo.tts_model), snd run).
Proof.
  intros run.
  apply (@load_model_again Demo.torch Demo.registry "v3_en.pt" Demo.disk
           (snd run) (of_str "v3_en.pt") Demo.tts_model (fun _ => None)).
  vm_compute. reflexivity.
Defined.

(** X20. What a constructed service has in place ([__init__], tts.py,
    lines 46-71): its language is a key of its registry, its model file
    is a regular file whose package loads as its model, something
    exists at its sample path and at the cache file, [sessions] is a
    directory, and the budget of a chunk is 600 at a sample rate of
    48000. *)
Theorem init_in_place `{Json} `{Requests} `{Torch} (sample_path lang : string)
    (fs fs' : FS) (self : SileroTtsService.t) :
  SileroTtsService.init sample_path lang fs = (Ok self, fs') ->
  SileroTtsService.sample_path self = of_str sample_path
  /\ SileroTtsService.max_char_length self = 600
  /\ SileroTtsService.sample_rate self = 48000%N
  /\ SileroTtsService.model_file self = of_str lang
  /\ SessionManager.sessions_path (SileroTtsService.session_manager self)
     = of_str "sessions"
  /\ Dict.mem lang (SileroTtsService.langs self) = true
  /\ (exists package,
        node_at (of_str lang) fs' = Some (File package)
        /\ load_pickle package = Some (SileroTtsService.model self))
  /\ exists_ (of_str sample_path) fs' = true
  /\ exists_ SileroTtsService.cache_file fs' = true
  /\ is_dir (of_str "sessions") fs' = true.
Proof.
  intros Hrun. unfold SileroTtsService.init in Hrun. cbv zeta in Hrun.
  unfold bind at 1, OS.path_exists in Hrun.
  unfold bind at 1 in Hrun. step_in Hrun as u fs1 E1.
  unfold bind at 1 in Hrun. step_in Hrun as langs fs2 E2.
  unfold bind at 1 in Hrun. step_in Hrun as loaded fs3 E3.
  unfold bind at 1 in Hrun. step_in Hrun as sm fs4 E4.
  injection Hrun as <- <-. simpl.
  apply ensure_sample_path in E1.
  pose proof (keeps_list_languages _ _ _ _ E2 E1) as Hs2.
  pose proof (list_languages_leaves_cache _ _ _ E2) as Hc2.
  pose proof (keeps_load_model _ _ _ _ _ _ E3 Hs2) as Hs3.
  pose proof (keeps_load_model _ _ _ _ _ _ E3 Hc2) as Hc3.
  destruct loaded as [f m]. apply load_model_ok in E3.
  destruct E3 as (url & package & Hget & -> & Hnode & Hload & _).
  apply session_manager_init_ok in E4. destruct E4 as (-> & Hdir & Hframe).
  repeat split; try reflexivity.
  - unfold Dict.mem. now rewrite Hget.
  - exists package. split; [| exact Hload].
    rewrite Hframe; [exact Hnode |]. apply exists_true. rewrite Hnode. eauto.
  - apply exists_true. rewrite Hframe by exact Hs3. now apply exists_true.
  - apply exists_true. rewrite Hframe by exact Hc3. now apply exists_true.
  - exact Hdir.
Qed.

Lemma init_in_place_witness :
  let self := Demo.service in
  let fs' := Cases.disk_started in
  SileroTtsService.sample_path self = of_str "/srv/silero_api_server//samples"
  /\ SileroTtsService.max_char_length self = 600
  /\ SileroTtsService.sample_rate self = 48000%N
  /\ SileroTtsService.model_file self = of_str "v3_en.pt"
  /\ SessionManager.sessions_path (SileroTtsService.session_manager self)
     = of_str "sessions"
  /\ Dict.mem "v3_en.pt" (SileroTtsService.langs self) = true
  /\ (exists package,
        node_at (of_str "v3_en.pt") fs' = Some (File package)
        /\ @load_pickle Demo.torch package
           = Some (SileroTtsService.model self))
  /\ exists_ (of_str "/srv/silero_api_server//samples") fs' = true
  /\ exists_ SileroTtsService.cache_file fs' = true
  /\ is_dir (of_str "sessions") fs' = true.
Proof.
  intros self fs'.
  apply (@init_in_place Demo.json Demo.requests Demo.torch
           "/srv/silero_api_server//samples" "v3_en.pt"
           [(of_str "/srv/silero_api_server", Dir)]).
  vm_compute. reflexivity.
Defined.

(** X21. Building the service and switching its language remove nothing
    ([__init__], [list_languages] and [load_model], tts.py, lines
    46-88 and 161-188): whatever existed before still exists after,
    whether the call answers or raises. *)
Theorem service_setup_removes_nothing `{Json} `{Requests} `{Torch} :
  (forall sample_path lang, keeps (SileroTtsService.init sample_path lang))
  /\ (forall self lang_model,
        keeps (SileroTtsService.set_language self lang_model)).
Proof.
  split.
  - intros sample_path lang. unfold SileroTtsService.init. cbv zeta.
    apply keeps_bind; [apply keeps_readonly, readonly_path_exists |].
    intros present. apply keeps_bind.
    { destruct (negb present); [apply keeps_mkdir | apply keeps_ret]. }
    intros u. apply keeps_bind; [apply keeps_list_languages |].
    intros langs. apply keeps_bind; [apply keeps_load_model |].
    intros loaded. apply keeps_bind; [apply keeps_session_manager_init |].
    intros sm. apply keeps_ret.
  - intros self lang_model. unfold SileroTtsService.set_language.
    apply keeps_bind; [apply keeps_load_model |].
    intros loaded. apply keeps_ret.
Qed.

(** ** The HTTP endpoints *)

(** X22. A request to generate that names a session whose directory
    does not exist (server.py, lines 71-79) is answered with status 500,
    the detail naming the speaker and SessionNotInitialized, and nothing
    is created: the endpoint does not initialize a session it is asked
    for. *)
Theorem endpoint_generate_unknown_session `{Pydub}
    (tts_service : SileroTtsService.t) (today : string) (now : N)
    (voice : Server.Voice) (session_id : string) (fs : FS) :
  Server.session voice = Some session_id ->
  exists_ (session_dir (SileroTtsService.session_manager tts_service)
             session_id) fs = false ->
  Server.generate tts_service today now voice fs
  = (Server.HTTPException 500 (Server.speaker voice) SessionNotInitialized, fs).
Proof.
  intros Hs Hex. unfold Server.generate, Server.generate_try. cbv zeta.
  rewrite Hs. unfold bind.
  now rewrite (get_session_path_absent _ _ _ Hex).
Qed.

Lemma endpoint_generate_unknown_session_witness :
  @Server.generate Demo.pydub Demo.service Demo.today Demo.now
    {| Server.speaker := "en_0"; Server.text := Demo.short_text;
       Server.session := Some "alice" |} Demo.disk
  = (Server.HTTPException 500 "en_0" SessionNotInitialized, Demo.disk).
Proof.
  apply (@endpoint_generate_unknown_session Demo.pydub Demo.service Demo.today
           Demo.now
           {| Server.speaker := "en_0"; Server.text := Demo.short_text;
              Server.session := Some "alice" |} "alice" Demo.disk).
  - reflexivity.
  - vm_compute. reflexivity.
Defined.

(** X23. A request to generate without a session (server.py, lines
    69-70 and 75-79) works in the session of the day: when it is
    answered the directory of that session exists, and when it fails the
    status is 500, the detail names the speaker, and the cause is an
    exception of the operating system or of a collaborator, never
    SessionNotInitialized. *)
Theorem endpoint_generate_new_session `{Pydub}
    (tts_service : SileroTtsService.t) (today : string) (now : N)
    (voice : Server.Voice) (fs fs' : FS) (resp : Server.response Path) :
  Server.session voice = None ->
  Server.generate tts_service today now voice fs = (resp, fs') ->
  match resp with
  | Server.Sent _ =>
      exists_ (session_dir (SileroTtsService.session_manager tts_service)
                 today) fs' = true
  | Server.HTTPException status_code speaker cause =>
      status_code = 500 /\ speaker = Server.speaker voice /\ from_below cause
  end.
Proof.
  intros Hs. unfold Server.generate, Server.generate_try. cbv zeta.
  rewrite Hs. unfold bind at 1.
  destruct (SessionManager.create_session _ today None fs)
    as [[id|e] fs1] eqn:E.
  - apply create_session_dated in E. destruct E as (-> & Hex & _).
    destruct (SileroTtsService.generate _ _ _ _ _ fs1) as [[p|e] fs2] eqn:E2;
      intros [= <- <-].
    + now apply (keeps_generate tts_service now _ _ _ fs1 _ fs2 _ E2).
    + repeat split.
      eapply generate_past_check; [exact Hex | exact E2].
  - intros [= <- <-]. repeat split.
    exact (raises_create_session _ _ _ _ _ E).
Qed.

Lemma endpoint_generate_new_session_witness :
  exists_ (session_dir Demo.sm Demo.today)
    (snd (@Server.generate Demo.pydub Demo.service Demo.today Demo.now
            {| Server.speaker := "en_0"; Server.text := Demo.short_text;
               Server.session := None |} Demo.disk)) = true.
Proof.
  apply (@endpoint_generate_new_session Demo.pydub Demo.service Demo.today
           Demo.now
           {| Server.speaker := "en_0"; Server.text := Demo.short_text;
              Server.session := None |} Demo.disk _
           (Server.Sent (of_str "test.wav"))).
  - reflexivity.
  - vm_compute. reflexivity.
Defined.

(** X24. A request to generate that names a session whose directory
    exists (server.py, lines 71-79) is the call of [generate] on the
    disk as it is: the look-up and the initialization of lines 72-74
    change nothing, and the answer is the file [generate] answers, or a
    500 for the exception it raises. *)
Theorem endpoint_generate_known_session `{Pydub}
    (tts_service : SileroTtsService.t) (today : string) (now : N)
    (voice : Server.Voice) (session_id : string) (fs : FS) :
  Server.session voice = Some session_id ->
  exists_ (session_dir (SileroTtsService.session_manager tts_service)
             session_id) fs = true ->
  Server.generate tts_service today now voice fs
  = match SileroTtsService.generate tts_service now (Server.speaker voice)
            (Server.text voice) session_id fs with
    | (Ok audio, fs') => (Server.Sent audio, fs')
    | (Raise e, fs') => (Server.HTTPException 500 (Server.speaker voice) e, fs')
    end.
Proof.
  intros Hs Hex. unfold Server.generate, Server.generate_try. cbv zeta.
  rewrite Hs. unfold bind at 1 2 3.
  rewrite (get_session_path_present _ _ _ Hex).
  now rewrite (init_session_path_present _ _ _ Hex).
Qed.

Lemma endpoint_generate_known_session_witness :
  let voice :=
    {| Server.speaker := "en_0"; Server.text := Demo.short_text;
       Server.session := Some "alice" |} in
  @Server.generate Demo.pydub Demo.service Demo.today Demo.now voice
    Cases.disk_alice
  = match @SileroTtsService.generate Demo.pydub Demo.service Demo.now "en_0"
            Demo.short_text "alice" Cases.disk_alice with
    | (Ok audio, fs') => (Server.Sent audio, fs')
    | (Raise e, fs') => (Server.HTTPException 500 "en_0" e, fs')
    end.
Proof.
  intros voice.
  apply (@endpoint_generate_known_session Demo.pydub Demo.service Demo.today
           Demo.now voice "alice" Cases.disk_alice).
  - reflexivity.
  - vm_compute. reflexivity.
Defined.

(** X25. A request to generate samples with a new text (server.py, lines
    85-89, with tts.py, lines 155-159) sets the sample text of the
    service and, when it is answered, leaves for every speaker of the
    model a sample that holds what the model makes of the new text; a
    request without a text, or with the empty text, leaves the service
    as it was. *)
Theorem endpoint_generate_samples_text (tts_service : SileroTtsService.t)
    (sample_text : string) (fs fs' : FS) :
  sample_text <> EmptyString ->
  anchored (SileroTtsService.sample_path tts_service) = true ->
  List.Forall plain (speakers (SileroTtsService.model tts_service)) ->
  (forall speaker out data,
     save_wav (SileroTtsService.model tts_service) sample_text speaker
       (SileroTtsService.sample_rate tts_service) = Some (out, data) ->
     parent (of_str out) <> SileroTtsService.sample_path tts_service) ->
  snd (Server.generate_samples tts_service (Some sample_text)) fs
  = (Ok tt, fs') ->
  SileroTtsService.sample_text
    (fst (Server.generate_samples tts_service (Some sample_text)))
  = sample_text
  /\ (forall speaker,
        List.In speaker (speakers (SileroTtsService.model tts_service)) ->
        exists out data,
          save_wav (SileroTtsService.model tts_service) sample_text speaker
            (SileroTtsService.sample_rate tts_service) = Some (out, data)
          /\ fs_lookup (sample_of tts_service speaker) fs' = Some (File data))
  /\ fst (Server.generate_samples tts_service None) = tts_service
  /\ fst (Server.generate_samples tts_service (Some EmptyString)) = tts_service.
Proof.
  intros Htext Habs Hplain Hout Hrun.
  destruct sample_text as [|c t]; [congruence |].
  split; [reflexivity |]. split; [| split; reflexivity].
  unfold Server.generate_samples in Hrun. cbv zeta in Hrun. simpl snd in Hrun.
  apply generate_samples_post in Hrun.
  - destruct Hrun as [_ Hfresh]. intros speaker Hin.
    rewrite List.Forall_forall in Hfresh. now apply (Hfresh speaker).
  - exact Habs.
  - exact Hplain.
  - apply List.Forall_forall. intros speaker _ out data. apply Hout.
Qed.

Lemma endpoint_generate_samples_text_witness :
  let run := Server.generate_samples Demo.service (Some "Good morning.") in
  SileroTtsService.sample_text (fst run) = "Good morning."
  /\ (forall speaker,
        List.In speaker (speakers (SileroTtsService.model Demo.service)) ->
        exists out data,
          save_wav (SileroTtsService.model Demo.service) "Good morning."
            speaker (SileroTtsService.sample_rate Demo.service)
          = Some (out, data)
          /\ fs_lookup (sample_of Demo.service speaker)
               (snd (snd run Demo.disk_samples)) = Some (File data))
  /\ fst (Server.generate_samples Demo.service None) = Demo.service
  /\ fst (Server.generate_samples Demo.service (Some EmptyString))
     = Demo.service.
Proof.
  intros run.
  apply (endpoint_generate_samples_text Demo.service "Good morning."
           Demo.disk_samples).
  - discriminate.
  - reflexivity.
  - repeat constructor.
  - intros speaker out data Hsave. injection Hsave as <- _.
    vm_compute. discriminate.
  - vm_compute. reflexivity.
Defined.

(** X26. [generate_samples] (tts.py, lines 143-144) removes the entries
    of the sample directory under the name the sample path joined with
    the entry gives, and stops at the first entry that is no regular
    file under that name. When that is the first entry listed, the call
    raises and has changed nothing: so it is for a subdirectory among
    the samples, and for a relative sample path, whose entries are
    joined to it a second time. *)
Theorem generate_samples_first_entry (self : SileroTtsService.t) (fs : FS)
    (file : Path) (files : list Path) :
  children (SileroTtsService.sample_path self) fs = file :: files ->
  is_file (joinpath (SileroTtsService.sample_path self) file) fs = false ->
  SileroTtsService.generate_samples self fs = (Raise OSError, fs).
Proof.
  intros Hfiles Hfile. unfold SileroTtsService.generate_samples.
  unfold bind at 1, OS.iterdir.
  destruct (is_dir (SileroTtsService.sample_path self) fs); [| reflexivity].
  rewrite Hfiles. unfold bind at 1. cbn [for_each].
  unfold bind at 1, OS.remove, OS.lift_os. now rewrite Hfile.
Qed.

Lemma generate_samples_first_entry_witness :
  SileroTtsService.generate_samples Demo.service_relative Demo.disk_relative
  = (Raise OSError, Demo.disk_relative).
Proof.
  apply (generate_samples_first_entry Demo.service_relative Demo.disk_relative
           (of_str "samples/en_0.wav") []).
  - vm_compute. reflexivity.
  - vm_compute. reflexivity.
Defined.
